(** * The authentication service of angular-boilerplates

    A shallow embedding of [src/auth.service.ts]: the cookie-backed session,
    the RxJS pipelines of the four verb wrappers, the token refresh routine,
    login, logout and the spreadsheet download; and of the helpers of
    [src/globals.config.ts], in the module [Globals].

    JavaScript statements are functions from the state of the page (a [World])
    to a new state and a completion; an RxJS observable is a value that does
    nothing until it is subscribed.  Everything the code does to its
    surroundings (HTTP requests, calls of the caller's closure, router
    navigation, page reload, opened windows, console output) is appended to
    one trace, in program order.

    One call of the service is followed from its start to the end of its last
    callback, with the remote side as an oracle that answers each request
    when it is sent.  Other calls in flight at the same time, and what a
    browser does to a page that asked for a reload, are outside the model. *)

From Stdlib Require Import ZArith String List Lia.
From stdpp Require Import base option gmap strings pretty.
Set Warnings "-register-all".
Import ListNotations.
Local Open Scope Z_scope.
Local Open Scope string_scope.

(** ** JavaScript values *)

(** The values that travel as request payloads, response bodies and closure
    arguments.  Numbers are the integers (HTTP statuses are the only numbers
    the service produces). *)
Inductive JsValue : Type :=
| JsUndefined
| JsNull
| JsBoolean (b : bool)
| JsNumber (n : Z)
| JsString (s : string)
| JsObject (props : list (string * JsValue)).

(** What can be thrown, or travel on the error channel of an observable:
    the [HttpErrorResponse] of Angular's client, with its [status] and its
    [error] (the body of the failed response, [null] when it was empty), and
    the [TypeError] of the language. *)
Inductive Thrown : Type :=
| HttpErrorResponse (status : Z) (error : JsValue)
| TypeError (what : string).

(** [e.status] *)
Definition status_of (e : Thrown) : JsValue :=
  match e with
  | HttpErrorResponse s _ => JsNumber s
  | TypeError _ => JsUndefined
  end.

(** [e.error] *)
Definition error_of (e : Thrown) : JsValue :=
  match e with
  | HttpErrorResponse _ b => b
  | TypeError _ => JsUndefined
  end.

(** [v == k] for a number literal [k]; the left operand is a status, so a
    number or [undefined]. *)
Definition loose_eq_number (v : JsValue) (k : Z) : bool :=
  match v with
  | JsNumber n => Z.eqb n k
  | _ => false
  end.

Fixpoint own_property (k : string) (props : list (string * JsValue)) : JsValue :=
  match props with
  | [] => JsUndefined
  | (k', v) :: rest => if String.eqb k k' then v else own_property k rest
  end.

Inductive Completion (A : Type) : Type :=
| Normal (a : A)
| Throw (e : Thrown).
Arguments Normal {A} a.
Arguments Throw {A} e.

(** [v.message]: reading a property of [null] or [undefined] throws; an
    object answers with its own property; a primitive has none. *)
Definition message_of (v : JsValue) : Completion JsValue :=
  match v with
  | JsUndefined => Throw (TypeError "Cannot read properties of undefined (reading 'message')")
  | JsNull => Throw (TypeError "Cannot read properties of null (reading 'message')")
  | JsObject props => Normal (own_property "message" props)
  | _ => Normal JsUndefined
  end.

(** The values JavaScript takes for true in a condition: all but
    [undefined], [null], [false], [0] and the empty string.  Angular's
    [HttpErrorResponse] keeps [init.error || null], so the body of a failed
    response reaches the service as it came exactly when it is truthy. *)
Definition truthy (v : JsValue) : bool :=
  match v with
  | JsUndefined | JsNull => false
  | JsBoolean b => b
  | JsNumber n => negb (Z.eqb n 0)
  | JsString s => negb (String.eqb s "")
  | JsObject _ => true
  end.

(** ** The page and its surroundings *)

(** A [Date] in local time: the calendar day and the time within it. *)
Record Date : Type := mkDate { day_number : Z; time_of_day : Z }.

(** [d.setDate(d.getDate() + n)] moves the calendar day and keeps the time. *)
Definition plus_days (d : Date) (n : Z) : Date :=
  {| day_number := day_number d + n; time_of_day := time_of_day d |}.

Record Cookie : Type := mkCookie { value : string; expires : Date; path : string }.

Inductive Method : Type := GET | POST | PUT | DELETE.

Inductive ResponseType : Type := Json | Blob.

Record HttpRequest : Type := mkRequest {
  method : Method;
  url : string;
  body : option JsValue;
  headers : list (string * string);
  responseType : ResponseType
}.

(** The part of [HttpRequest] that the service builds as an options object. *)
Record RequestOptions : Type := mkOptions {
  opt_headers : list (string * string);
  opt_responseType : ResponseType
}.

(** Modelled from the spec: the interface file [./oauthreponse.interface] is
    not among the sources.  The spec's AuthResponse is a pair of strings, the
    access token and the refresh token; the field names are the ones
    [RefreshToken] reads. *)
Record OAuthResponse : Type := mkOAuth { access_token : string; refresh_token : string }.

Record BlobObject : Type := mkBlob { blob_bytes : list Byte.byte; blob_type : string }.

Inductive Event : Type :=
| Sent (r : HttpRequest)
| Called (status data : JsValue) (seen : gmap string Cookie)
| Navigated (commands : list string)
| Reloaded (left_behind : gmap string Cookie)
| Opened (target : string)
| Logged (e : Thrown)
| Unhandled (e : Thrown).

Record World : Type := mkWorld {
  jar : gmap string Cookie;
  clock : Date;
  object_urls : list BlobObject;
  trace : list Event
}.

Definition with_jar (f : gmap string Cookie -> gmap string Cookie) (w : World) : World :=
  {| jar := f (jar w); clock := clock w; object_urls := object_urls w; trace := trace w |}.

Definition emit (e : Event) (w : World) : World :=
  {| jar := jar w; clock := clock w; object_urls := object_urls w; trace := trace w ++ [e] |}.

(** ** Statements *)

Definition JS (A : Type) : Type := World -> World * Completion A.

Definition ret {A} (a : A) : JS A := fun w => (w, Normal a).

Definition bind {A B} (c : JS A) (k : A -> JS B) : JS B :=
  fun w =>
    match c w with
    | (w1, Normal a) => k a w1
    | (w1, Throw e) => (w1, Throw e)
    end.

Definition lift {A} (c : Completion A) : JS A := fun w => (w, c).

Declare Scope js_scope.
Delimit Scope js_scope with js.
Notation "x <- c ;; k" := (bind c (fun x => k))
  (at level 100, c at next level, k at level 200, right associativity) : js_scope.
Notation "c ;; k" := (bind c (fun _ => k))
  (at level 100, k at level 200, right associativity) : js_scope.
Local Open Scope js_scope.

(** ** Observables *)

(** What an observer is told.  Every source in this service is an Angular
    HTTP call or [of(x)]: one value and completion, or an error. *)
Inductive Notification (A : Type) : Type :=
| Next (a : A)
| Error (e : Thrown).
Arguments Next {A} a.
Arguments Error {A} e.

(** A cold observable: building one has no effect, [run] is what a
    subscription does. *)
Record Observable (A : Type) : Type := Cold { run : World -> World * Notification A }.
Arguments Cold {A} run.
Arguments run {A} o w.

(** [of(a)] *)
Definition of_value {A} (a : A) : Observable A := Cold (fun w => (w, Next a)).

(** [map(project)]: an exception of [project] becomes an error notification. *)
Definition map {A B} (project : A -> JS B) (source : Observable A) : Observable B :=
  Cold (fun w =>
    match run source w with
    | (w1, Next a) =>
        match project a w1 with
        | (w2, Normal b) => (w2, Next b)
        | (w2, Throw e) => (w2, Error e)
        end
    | (w1, Error e) => (w1, Error e)
    end).

(** [catchError(selector)]: on an error the observable the selector returns
    is subscribed in place of the source; an exception of the selector is
    passed on as the error. *)
Definition catchError {A} (selector : Thrown -> JS (Observable A))
    (source : Observable A) : Observable A :=
  Cold (fun w =>
    match run source w with
    | (w1, Next a) => (w1, Next a)
    | (w1, Error e) =>
        match selector e w1 with
        | (w2, Normal handled) => run handled w2
        | (w2, Throw e') => (w2, Error e')
        end
    end).

(** [switchMap(project)] *)
Definition switchMap {A B} (project : A -> JS (Observable B))
    (source : Observable A) : Observable B :=
  Cold (fun w =>
    match run source w with
    | (w1, Next a) =>
        match project a w1 with
        | (w2, Normal inner) => run inner w2
        | (w2, Throw e) => (w2, Error e)
        end
    | (w1, Error e) => (w1, Error e)
    end).

(** [source.pipe(op1, op2, ...)] is written [source |> op1 |> op2]. *)
Notation "o |> f" := (f o) (at level 62, left associativity, only parsing).

(** [.subscribe()] without an observer: values are dropped, an error that
    nobody handles is reported by the library and the call returns. *)
Definition subscribe {A} (o : Observable A) : JS unit :=
  fun w =>
    match run o w with
    | (w1, Next _) => (w1, Normal tt)
    | (w1, Error e) => (emit (Unhandled e) w1, Normal tt)
    end.

(** ** The collaborators *)

(** What the transport answers to one request: a response the client takes
    as a success, with its status line and its body, or a failure.  The
    service observes the body only (the default of Angular's client), so the
    status of a success never reaches it. *)
Inductive HttpResult (A : Type) : Type :=
| Replied (status : Z) (content : A)
| Failed (status : Z) (error : JsValue).
Arguments Replied {A} status content.
Arguments Failed {A} status error.

(** The remote side: its answer to a request may depend on everything that
    happened before the request was sent.  One field per response type the
    service asks for: a JSON body, the typed body of
    [post<OAuthResponse>], and a blob. *)
Record Backend : Type := mkBackend {
  json_reply : list Event -> HttpRequest -> HttpResult JsValue;
  oauth_reply : list Event -> HttpRequest -> HttpResult OAuthResponse;
  blob_reply : list Event -> HttpRequest -> HttpResult BlobObject
}.

(** The observable of one HTTP call: the request leaves when it is
    subscribed, and is answered once. *)
Definition http_call {A} (reply : list Event -> HttpRequest -> HttpResult A)
    (r : HttpRequest) : Observable A :=
  Cold (fun w =>
    match reply (trace w) r with
    | Replied _ content => (emit (Sent r) w, Next content)
    | Failed status error => (emit (Sent r) w, Error (HttpErrorResponse status error))
    end).

(** Modelled from the spec: the cookie service is a library outside the
    sources.  Section 4.1: [set] writes a field and overwrites silently,
    [get] returns the stored value or the empty string when unset, [delete]
    removes a field and is idempotent. *)
Definition stored (cookies : gmap string Cookie) (name : string) : string :=
  match cookies !! name with
  | Some c => value c
  | None => ""
  end.

Definition cookie_get (name : string) : JS string :=
  fun w => (w, Normal (stored (jar w) name)).

Definition cookie_set (name val : string) (exp : Date) (pth : string) : JS unit :=
  fun w => (with_jar (insert name {| value := val; expires := exp; path := pth |}) w, Normal tt).

Definition cookie_delete (name pth : string) : JS unit :=
  fun w => (with_jar (delete name) w, Normal tt).

(** [new Date()] *)
Definition new_Date : JS Date := fun w => (w, Normal (clock w)).

(** [this.router.navigate(commands)] *)
Definition router_navigate (commands : list string) : JS unit :=
  fun w => (emit (Navigated commands) w, Normal tt).

(** [window.location.reload()]: the event keeps the cookies the reloaded
    page will find. *)
Definition location_reload : JS unit :=
  fun w => (emit (Reloaded (jar w)) w, Normal tt).

(** [window.URL.createObjectURL(blob)] *)
Definition createObjectURL (b : BlobObject) : JS string :=
  fun w =>
    ({| jar := jar w; clock := clock w;
        object_urls := object_urls w ++ [b]; trace := trace w |},
     Normal ("blob:" +:+ pretty (length (object_urls w)))).

(** [window.open(url)] *)
Definition window_open (target : string) : JS unit :=
  fun w => (emit (Opened target) w, Normal tt).

(** [console.log(error)] *)
Definition console_log (e : Thrown) : JS unit :=
  fun w => (emit (Logged e) w, Normal tt).

(** The caller's closure, [(statusCode, data) => ...]. *)
Definition Handler : Type := JsValue -> JsValue -> JS unit.

(** The closure the theorems hand to the service: it records its arguments
    and the cookies it could read when it was called. *)
Definition probe : Handler :=
  fun status data w => (emit (Called status data (jar w)) w, Normal tt).

(** A closure that is called and fails: it records the call like [probe],
    then throws. *)
Definition fragile : Handler :=
  fun status data w =>
    (emit (Called status data (jar w)) w, Throw (TypeError "closure failed")).

(** A closure that is called and fails with an error object of its own, with
    a [status] and an [error]. *)
Definition objecting : Handler :=
  fun status data w =>
    (emit (Called status data (jar w)) w,
     Throw (HttpErrorResponse 500 (JsObject [("message", JsString "inner")]))).

Definition xlsx : string :=
  "application/vnd.openxmlformats-officedocument.spreadsheetml.sheet".

(** ** The service *)

Section AuthService.

(** [Globals.apiUrl]; the constant is not declared in [globals.config.ts]. *)
Variable apiUrl : string.
Variable srv : Backend.

Definition http_get (target : string) (o : RequestOptions) : Observable JsValue :=
  http_call (json_reply srv)
    {| method := GET; url := target; body := None;
       headers := opt_headers o; responseType := opt_responseType o |}.

Definition http_post (target : string) (payload : JsValue) (o : RequestOptions)
    : Observable JsValue :=
  http_call (json_reply srv)
    {| method := POST; url := target; body := Some payload;
       headers := opt_headers o; responseType := opt_responseType o |}.

Definition http_put (target : string) (payload : JsValue) (o : RequestOptions)
    : Observable JsValue :=
  http_call (json_reply srv)
    {| method := PUT; url := target; body := Some payload;
       headers := opt_headers o; responseType := opt_responseType o |}.

Definition http_delete (target : string) (o : RequestOptions) : Observable JsValue :=
  http_call (json_reply srv)
    {| method := DELETE; url := target; body := None;
       headers := opt_headers o; responseType := opt_responseType o |}.

(** [this.http.post<OAuthResponse>(url, body)] *)
Definition http_post_oauth (target : string) (payload : JsValue)
    : Observable OAuthResponse :=
  http_call (oauth_reply srv)
    {| method := POST; url := target; body := Some payload;
       headers := []; responseType := Json |}.

(** [this.http.post(url, body, {responseType: 'blob', headers})] *)
Definition http_post_blob (target : string) (payload : JsValue) (o : RequestOptions)
    : Observable BlobObject :=
  http_call (blob_reply srv)
    {| method := POST; url := target; body := Some payload;
       headers := opt_headers o; responseType := opt_responseType o |}.

Definition authenticateUser (username password : string) : JS (Observable OAuthResponse) :=
  let response :=
    http_post_oauth (apiUrl +:+ "/auth/login")
      (JsObject [("Username", JsString username); ("Password", JsString password)]) in
  ret response.

Definition autoLogin : JS unit :=
  logged <- cookie_get "is_loggedin" ;;
  if String.eqb logged "yes"
  then router_navigate ["/public/service-request"]
  else ret tt.

Definition ReturnHttpHeaders : JS RequestOptions :=
  token <- cookie_get "access_token" ;;
  ret {| opt_headers := [("Authorization", "Bearer " +:+ token)];
         opt_responseType := Json |}.

Definition logoutUser : JS unit :=
  cookie_delete "is_loggedin" "/" ;;
  cookie_delete "logged_user" "/" ;;
  cookie_delete "role" "/" ;;
  cookie_delete "access_token" "/" ;;
  cookie_delete "refresh_token" "/" ;;
  location_reload.

Definition RefreshToken : JS (Observable JsValue) :=
  today <- new_Date ;;
  let cookieExpiry := plus_days today 30 in
  user <- cookie_get "logged_user" ;;
  token <- cookie_get "refresh_token" ;;
  ret (http_post_oauth (apiUrl +:+ "/auth/refresh-token")
         (JsObject [("Username", JsString user); ("RefreshToken", JsString token)])
       |> map (fun response =>
            cookie_set "access_token" (access_token response) cookieExpiry "/" ;;
            cookie_set "refresh_token" (refresh_token response) cookieExpiry "/" ;;
            ret JsUndefined)
       |> catchError (fun error =>
            (if loose_eq_number (status_of error) 401
             then (logoutUser ;; router_navigate ["/401"])
             else router_navigate ["/400"]) ;;
            ret (of_value JsNull))).

Definition GetRequest (uri : string) (closure : Handler) : JS unit :=
  options <- ReturnHttpHeaders ;;
  subscribe
    (http_get (apiUrl +:+ uri) options
     |> map (fun response => closure (JsNumber 200) response ;; ret JsUndefined)
     |> catchError (fun error =>
          if loose_eq_number (status_of error) 401 then
            refreshed <- RefreshToken ;;
            ret (refreshed
                 |> switchMap (fun _ =>
                      again <- ReturnHttpHeaders ;;
                      ret (http_get (apiUrl +:+ uri) again))
                 |> map (fun response => closure (JsNumber 200) response ;; ret JsUndefined)
                 |> catchError (fun refreshError =>
                      closure (status_of refreshError) (error_of refreshError) ;;
                      ret (of_value JsNull)))
          else
            message <- lift (message_of (error_of error)) ;;
            closure (status_of error) message ;;
            ret (of_value JsNull))).

Definition PostRequest (uri : string) (payload : JsValue) (closure : Handler) : JS unit :=
  options <- ReturnHttpHeaders ;;
  subscribe
    (http_post (apiUrl +:+ uri) payload options
     |> map (fun response => closure (JsNumber 200) response ;; ret JsUndefined)
     |> catchError (fun error =>
          if loose_eq_number (status_of error) 401 then
            refreshed <- RefreshToken ;;
            ret (refreshed
                 |> switchMap (fun _ =>
                      again <- ReturnHttpHeaders ;;
                      ret (http_post (apiUrl +:+ uri) payload again))
                 |> map (fun response => closure (JsNumber 200) response ;; ret JsUndefined)
                 |> catchError (fun refreshError =>
                      closure (status_of refreshError) (error_of refreshError) ;;
                      ret (of_value JsNull)))
          else
            message <- lift (message_of (error_of error)) ;;
            closure (status_of error) message ;;
            ret (of_value JsNull))).

(** The pipeline [PostDownload] builds. *)
Definition PostDownload_pipeline (uri : string) (payload : JsValue) : Observable JsValue :=
  http_post_blob (apiUrl +:+ uri) payload
    {| opt_headers := [("Accept", xlsx)]; opt_responseType := Blob |}
  |> map (fun response =>
       let blob := {| blob_bytes := blob_bytes response; blob_type := xlsx |} in
       link <- createObjectURL blob ;;
       window_open link ;;
       ret JsUndefined)
  |> catchError (fun error => console_log error ;; ret (of_value JsNull)).

(** The method ends with [.pipe(...)]: the pipeline is built, it is neither
    subscribed nor returned. *)
Definition PostDownload (uri : string) (payload : JsValue) : JS unit :=
  let _ := PostDownload_pipeline uri payload in
  ret tt.

Definition DeleteRequest (uri : string) (closure : Handler) : JS unit :=
  options <- ReturnHttpHeaders ;;
  subscribe
    (http_delete (apiUrl +:+ uri) options
     |> map (fun response => closure (JsNumber 200) response ;; ret JsUndefined)
     |> catchError (fun error =>
          if loose_eq_number (status_of error) 401 then
            refreshed <- RefreshToken ;;
            ret (refreshed
                 |> switchMap (fun _ =>
                      again <- ReturnHttpHeaders ;;
                      ret (http_delete (apiUrl +:+ uri) again))
                 |> map (fun response => closure (JsNumber 200) response ;; ret JsUndefined)
                 |> catchError (fun refreshError =>
                      closure (status_of refreshError) (error_of refreshError) ;;
                      ret (of_value JsNull)))
          else
            message <- lift (message_of (error_of error)) ;;
            closure (status_of error) message ;;
            ret (of_value JsNull))).

Definition PutRequest (uri : string) (payload : JsValue) (closure : Handler) : JS unit :=
  options <- ReturnHttpHeaders ;;
  subscribe
    (http_put (apiUrl +:+ uri) payload options
     |> map (fun response => closure (JsNumber 200) response ;; ret JsUndefined)
     |> catchError (fun error =>
          if loose_eq_number (status_of error) 401 then
            refreshed <- RefreshToken ;;
            ret (refreshed
                 |> switchMap (fun _ =>
                      again <- ReturnHttpHeaders ;;
                      ret (http_put (apiUrl +:+ uri) payload again))
                 |> map (fun response => closure (JsNumber 200) response ;; ret JsUndefined)
                 |> catchError (fun refreshError =>
                      closure (status_of refreshError) (error_of refreshError) ;;
                      ret (of_value JsNull)))
          else
            message <- lift (message_of (error_of error)) ;;
            closure (status_of error) message ;;
            ret (of_value JsNull))).

(** ** The four verb operations as one family *)

Definition invoke (m : Method) (uri : string) (payload : JsValue) (closure : Handler)
    : JS unit :=
  match m with
  | GET => GetRequest uri closure
  | POST => PostRequest uri payload closure
  | PUT => PutRequest uri payload closure
  | DELETE => DeleteRequest uri closure
  end.

(** The request a verb operation puts on the wire when the access token
    cookie reads [token]. *)
Definition verb_request (m : Method) (uri : string) (payload : JsValue) (token : string)
    : HttpRequest :=
  {| method := m;
     url := apiUrl +:+ uri;
     body := match m with GET | DELETE => None | POST | PUT => Some payload end;
     headers := [("Authorization", "Bearer " +:+ token)];
     responseType := Json |}.

(** The request of the refresh routine for the cookies at hand. *)
Definition refresh_request (cookies : gmap string Cookie) : HttpRequest :=
  {| method := POST;
     url := apiUrl +:+ "/auth/refresh-token";
     body := Some (JsObject [("Username", JsString (stored cookies "logged_user"));
                             ("RefreshToken", JsString (stored cookies "refresh_token"))]);
     headers := [];
     responseType := Json |}.

(** Calling [RefreshToken()] and subscribing to what it returns. *)
Definition refreshing : World -> World * Notification JsValue :=
  fun w =>
    match RefreshToken w with
    | (w1, Normal o) => run o w1
    | (w1, Throw e) => (w1, Error e)
    end.

End AuthService.

(** ** Reading a trace *)

(** The arguments of the closure calls, oldest first. *)
Fixpoint calls_of (t : list Event) : list (JsValue * JsValue) :=
  match t with
  | [] => []
  | Called status data _ :: rest => (status, data) :: calls_of rest
  | _ :: rest => calls_of rest
  end.

(** The requests sent, oldest first. *)
Fixpoint requests_of (t : list Event) : list HttpRequest :=
  match t with
  | [] => []
  | Sent r :: rest => r :: requests_of rest
  | _ :: rest => requests_of rest
  end.

(** The closure call that ends the retry branch of a verb operation, for the
    answer the retried request got. *)
Definition retry_call (r : HttpResult JsValue) (seen : gmap string Cookie) : Event :=
  match r with
  | Replied _ content => Called (JsNumber 200) content seen
  | Failed status error => Called (JsNumber status) error seen
  end.

(** The cookies [logoutUser] leaves. *)
Definition clear_session (cookies : gmap string Cookie) : gmap string Cookie :=
  delete "refresh_token"
    (delete "access_token"
      (delete "role"
        (delete "logged_user"
          (delete "is_loggedin" cookies)))).

(** The cookies a successful refresh leaves. *)
Definition renew_session (fresh : OAuthResponse) (until : Date)
    (cookies : gmap string Cookie) : gmap string Cookie :=
  <["refresh_token" := {| value := refresh_token fresh; expires := until; path := "/" |}]>
    (<["access_token" := {| value := access_token fresh; expires := until; path := "/" |}]>
      cookies).

Definition session_keys : list string :=
  ["is_loggedin"; "logged_user"; "role"; "access_token"; "refresh_token"].

(** The two token cookies are both present or both absent. *)
Definition paired (cookies : gmap string Cookie) : Prop :=
  cookies !! "access_token" = None <-> cookies !! "refresh_token" = None.

(** * [globals.config.ts] *)

Module Globals.

(** ** [isNullOrWhiteSpace] *)

(** A JavaScript string is taken here as the list of its UTF-16 code units.
    The units [trim] removes are those of WhiteSpace and LineTerminator:
    tab, line feed, vertical tab, form feed, carriage return, space,
    no-break space, U+1680, U+2000 to U+200A, U+2028, U+2029, U+202F, U+205F,
    U+3000 and U+FEFF. *)
Definition is_white_space (c : N) : bool :=
  N.eqb c 9 || N.eqb c 10 || N.eqb c 11 || N.eqb c 12 || N.eqb c 13 ||
  N.eqb c 32 || N.eqb c 160 || N.eqb c 5760 ||
  (N.leb 8192 c && N.leb c 8202) ||
  N.eqb c 8232 || N.eqb c 8233 || N.eqb c 8239 || N.eqb c 8287 ||
  N.eqb c 12288 || N.eqb c 65279.

Fixpoint trimStart (s : list N) : list N :=
  match s with
  | [] => []
  | c :: rest => if is_white_space c then trimStart rest else s
  end.

Definition trimEnd (s : list N) : list N := rev (trimStart (rev s)).

(** [s.trim()] *)
Definition trim (s : list N) : list N := trimEnd (trimStart s).

(** The argument type [string | null | undefined]. *)
Inductive Input : Type :=
| Null
| Undefined
| Str (units : list N).

(** [!input]: [null], [undefined] and the empty string are falsy. *)
Definition falsy (input : Input) : bool :=
  match input with
  | Null | Undefined | Str [] => true
  | Str (_ :: _) => false
  end.

Definition isNullOrWhiteSpace (input : Input) : bool :=
  if falsy input then true
  else
    match input with
    | Str s => Nat.eqb (length (trim s)) 0
    | Null | Undefined => true
    end.

(** ** [getCurrentDateTimeInISOFormat] *)

Definition space : Ascii.ascii := Ascii.ascii_of_nat 32.

(** [s.replace(' ', replacement)] with a string pattern: the first space
    only. *)
Fixpoint replace_space (replacement : string) (s : string) : string :=
  match s with
  | EmptyString => EmptyString
  | String c rest =>
      if Ascii.eqb c space then replacement +:+ rest
      else String c (replace_space replacement rest)
  end.

Section Clock.

(** [new Intl.DateTimeFormat('sv-SE', {timeZone, ...}).format(date)], the
    platform's formatter: the text for a time zone it knows, nothing for one
    it rejects with a RangeError. *)
Variable format_sv_SE : string -> Date -> option string.

(** The result, or nothing when the formatter threw. *)
Definition getCurrentDateTimeInISOFormat (timeZone : string) (w : World) : option string :=
  let date := clock w in
  match format_sv_SE timeZone date with
  | Some text => Some (replace_space "T" text +:+ "Z")
  | None => None
  end.

End Clock.

(** ** Form data *)

Record File : Type := mkFile { file_name : string; file_content : BlobObject }.

(** The values an object handed to [appendObjectToFormData] is made of.  A
    [Date] is given by the text of its [toISOString()], an invalid one has
    none; an object is given by its own enumerable properties in the order of
    [for ... in]; an array has no holes; a number is given by the string
    JavaScript makes of it ([30], [-2.5], [1e+21], [NaN]). *)
Inductive Data : Type :=
| DUndefined
| DNull
| DBoolean (b : bool)
| DNumber (text : string)
| DString (s : string)
| DDate (iso : option string)
| DFile (f : File)
| DArray (items : list Data)
| DObject (props : list (string * Data)).

(** An entry value of a [FormData]: a string or a file. *)
Inductive FormValue : Type :=
| Text (s : string)
| Upload (f : File).

Definition FormData : Type := list (string * FormValue).

(** How a call ends: it returns, or a RangeError or a TypeError leaves it
    (the wording of the error is the engine's). *)
Inductive Ending : Type :=
| Returned
| RangeError
| TypeError.

(** A statement on the form data, which is changed in place: what it has
    appended stays when it throws. *)
Definition Step : Type := FormData -> FormData * Ending.

Definition skip : Step := fun fd => (fd, Returned).

Definition throw (thrown : Ending) : Step := fun fd => (fd, thrown).

Definition and_then (a b : Step) : Step :=
  fun fd =>
    match a fd with
    | (fd1, Returned) => b fd1
    | (fd1, thrown) => (fd1, thrown)
    end.

(** [formData.append(name, value)] *)
Definition append (name : string) (v : FormValue) : Step :=
  fun fd => ((fd ++ [(name, v)])%list, Returned).

(** The string [append] makes of a value that is neither a file nor an
    object. *)
Definition primitive_text (v : Data) : string :=
  match v with
  | DNull => "null"
  | DBoolean true => "true"
  | DBoolean false => "false"
  | DNumber text => text
  | DString s => s
  | _ => ""
  end.

(** [for (const key in obj)] over the properties of an object. *)
Fixpoint each_property {A} (body : string -> A -> Step) (props : list (string * A)) : Step :=
  match props with
  | [] => skip
  | (key, v) :: rest => and_then (body key v) (each_property body rest)
  end.

(** A loop over the elements of an array, from index [i] on. *)
Fixpoint each_index {A} (body : nat -> A -> Step) (i : nat) (items : list A) : Step :=
  match items with
  | [] => skip
  | x :: rest => and_then (body i x) (each_index body (S i) rest)
  end.

(** [obj.hasOwnProperty] is looked up on the object itself first: an own
    property of that name stands in the way of the inherited method, and no
    value of [Data] is a function. *)
Definition shadows_hasOwnProperty (props : list (string * Data)) : bool :=
  existsb (fun kv => String.eqb (fst kv) "hasOwnProperty") props.

(** [parentKey ? `${parentKey}.${key}` : key] *)
Definition property_name (parentKey key : string) : string :=
  match parentKey with
  | EmptyString => key
  | _ => parentKey +:+ "." +:+ key
  end.

(** [`${propName}[${index}]`] *)
Definition array_key (propName : string) (index : nat) : string :=
  propName +:+ "[" +:+ pretty index +:+ "]".

Fixpoint appendObjectToFormData (obj : Data) (parentKey : string) {struct obj} : Step :=
  let visit := fun (key : string) (value : Data) =>
    let propName := property_name parentKey key in
    match value with
    | DUndefined => append propName (Text "")
    | DDate (Some iso) => append propName (Text iso)
    | DDate None => throw RangeError
    | DFile f => append propName (Upload f)
    | DArray items =>
        each_index (fun index element =>
          let arrayKey := array_key propName index in
          match element with
          | DDate _ | DFile _ | DArray _ | DObject _ =>
              appendObjectToFormData element arrayKey
          | DUndefined => append arrayKey (Text "")
          | DNull | DBoolean _ | DNumber _ | DString _ =>
              append arrayKey (Text (primitive_text element))
          end) 0 items
    | DObject _ => appendObjectToFormData value propName
    | DNull | DBoolean _ | DNumber _ | DString _ =>
        append propName (Text (primitive_text value))
    end in
  match obj with
  | DObject props =>
      if shadows_hasOwnProperty props
      then throw TypeError
      else each_property visit props
  | DArray items => each_index (fun index element => visit (pretty index) element) 0 items
  | DString s =>
      each_index (fun index c =>
        append (property_name parentKey (pretty index)) (Text (String c EmptyString)))
        0 (list_ascii_of_string s)
  | DUndefined | DNull | DBoolean _ | DNumber _ | DDate _ | DFile _ => skip
  end.

(** [for (let i = 0; i < filesToUpload.length; i++)
       formData.append('files', filesToUpload[i])] *)
Definition appendFilesToFormData (filesToUpload : list File) : Step :=
  each_index (fun i file => append "files" (Upload file)) 0 filesToUpload.

(** ** Reading a run *)

(** What a statement appends to an empty form data, and how it ends. *)
Definition entries (s : Step) : FormData := fst (s []).
Definition ending (s : Step) : Ending := snd (s []).

(** A statement is framed when it leaves the entries it finds in place and
    what it appends, and how it ends, do not depend on them. *)
Definition framed (s : Step) : Prop :=
  forall fd, s fd = ((fd ++ entries s)%list, ending s).

(** The body of the [for ... in] loop of [appendObjectToFormData], with the
    recursive calls left open. *)
Definition loop_body (recur : Data -> string -> Step) (parentKey key : string)
    (value : Data) : Step :=
  let propName := property_name parentKey key in
  match value with
  | DUndefined => append propName (Text "")
  | DDate (Some iso) => append propName (Text iso)
  | DDate None => throw RangeError
  | DFile f => append propName (Upload f)
  | DArray items =>
      each_index (fun index element =>
        let arrayKey := array_key propName index in
        match element with
        | DDate _ | DFile _ | DArray _ | DObject _ => recur element arrayKey
        | DUndefined => append arrayKey (Text "")
        | DNull | DBoolean _ | DNumber _ | DString _ =>
            append arrayKey (Text (primitive_text element))
        end) 0 items
  | DObject _ => recur value propName
  | DNull | DBoolean _ | DNumber _ | DString _ =>
      append propName (Text (primitive_text value))
  end.

Fixpoint size (d : Data) : nat :=
  match d with
  | DArray items => S (list_sum (List.map size items))
  | DObject props => S (list_sum (List.map (fun kv => size (snd kv)) props))
  | _ => 1
  end.

(** Values that are not objects: [undefined], [null], booleans, numbers and
    strings. *)
Definition is_leaf (d : Data) : bool :=
  match d with
  | DUndefined | DNull | DBoolean _ | DNumber _ | DString _ => true
  | DDate _ | DFile _ | DArray _ | DObject _ => false
  end.

(** The text a leaf is appended as: [undefined] gives the empty string, any
    other leaf the string JavaScript makes of it. *)
Definition leaf_text (d : Data) : string :=
  match d with
  | DUndefined => ""
  | _ => primitive_text d
  end.

Definition is_date_or_file (d : Data) : bool :=
  match d with
  | DDate _ | DFile _ => true
  | _ => false
  end.

(** ** Sample values *)

Definition clock_text (timeZone : string) (d : Date) : option string :=
  if String.eqb timeZone "Asia/Manila" then Some "2024-01-15 21:45:30" else None.

Definition avatar : File :=
  {| file_name := "avatar.png";
     file_content := {| blob_bytes := [Byte.x89; Byte.x50]; blob_type := "image/png" |} |}.

Definition profile_form : Data :=
  DObject [("name", DString "Ana"); ("age", DNumber "30"); ("nick", DUndefined);
           ("manager", DNull); ("active", DBoolean true)].

End Globals.


(** ** Scenarios *)

(** A signed-in page and a few remote sides, for the concrete runs below. *)
Module Scenario.

Definition api : string := "https://api.example.test".

Definition issued : Date := {| day_number := 20000; time_of_day := 36000000 |}.

Definition session : gmap string Cookie :=
  <["is_loggedin" := {| value := "yes"; expires := issued; path := "/" |}]>
  (<["logged_user" := {| value := "ana"; expires := issued; path := "/" |}]>
  (<["role" := {| value := "admin"; expires := issued; path := "/" |}]>
  (<["access_token" := {| value := "A1"; expires := issued; path := "/" |}]>
  (<["refresh_token" := {| value := "R1"; expires := issued; path := "/" |}]> ∅)))).

Definition signed_in : World :=
  {| jar := session;
     clock := {| day_number := 20003; time_of_day := 1000 |};
     object_urls := [];
     trace := [] |}.

(** A page without any cookie. *)
Definition signed_out : World :=
  {| jar := ∅;
     clock := {| day_number := 20003; time_of_day := 1000 |};
     object_urls := [];
     trace := [] |}.

(** The signed-in page with one more cookie, not of the session. *)
Definition themed : World :=
  with_jar (insert "theme" {| value := "dark"; expires := issued; path := "/" |})
    signed_in.

(** The same page holding the access token the resource server accepts. *)
Definition up_to_date : World :=
  with_jar (insert "access_token" {| value := "A2"; expires := issued; path := "/" |})
    signed_in.

Definition authorization (r : HttpRequest) : string :=
  match headers r with
  | (_, v) :: _ => v
  | [] => ""
  end.

Definition profile : JsValue := JsObject [("name", JsString "ana")].
Definition expired : JsValue := JsObject [("message", JsString "token expired")].
Definition malformed : JsValue := JsObject [("message", JsString "malformed refresh token")].
Definition revoked : JsValue := JsObject [("message", JsString "refresh token revoked")].
Definition not_found : JsValue :=
  JsObject [("message", JsString "Not Found"); ("path", JsString "/missing")].
Definition sheet : BlobObject := {| blob_bytes := [Byte.x50; Byte.x4b]; blob_type := "" |}.

(** The resource server knows one valid access token, A2. *)
Definition resource (r : HttpRequest) : HttpResult JsValue :=
  if String.eqb (authorization r) "Bearer A2"
  then Replied 201 profile
  else Failed 401 expired.

Definition remote (refresh_answer : HttpResult OAuthResponse) : Backend :=
  {| json_reply := fun _ r => resource r;
     oauth_reply := fun _ _ => refresh_answer;
     blob_reply := fun _ _ => Replied 200 sheet |}.

(** The refresh endpoint hands out the pair A2, R2. *)
Definition renewing : Backend :=
  remote (Replied 200 {| access_token := "A2"; refresh_token := "R2" |}).

(** The refresh endpoint answers 400. *)
Definition refusing : Backend := remote (Failed 400 malformed).

(** The refresh endpoint answers 401. *)
Definition rejecting : Backend := remote (Failed 401 revoked).

(** Every request fails with 500 and an empty body. *)
Definition broken : Backend :=
  {| json_reply := fun _ _ => Failed 500 JsNull;
     oauth_reply := fun _ _ => Failed 500 JsNull;
     blob_reply := fun _ _ => Failed 500 JsNull |}.

(** Every request fails with 404 and a JSON error body. *)
Definition absent : Backend :=
  {| json_reply := fun _ _ => Failed 404 not_found;
     oauth_reply := fun _ _ => Failed 404 not_found;
     blob_reply := fun _ _ => Failed 404 not_found |}.

End Scenario.

(** * Properties *)

Local Open Scope list_scope.

(** Worlds are taken apart before the definitions are unfolded, so that the
    projections compute. *)
Ltac js_unfold :=
  cbv [invoke GetRequest PostRequest PutRequest DeleteRequest RefreshToken
       logoutUser ReturnHttpHeaders refreshing
       http_get http_post http_put http_delete http_post_oauth http_call
       subscribe map catchError switchMap of_value run bind ret lift
       cookie_get cookie_set cookie_delete new_Date router_navigate
       location_reload probe emit with_jar
       verb_request refresh_request retry_call clear_session renew_session
       opt_headers opt_responseType status_of error_of loose_eq_number
       trace jar clock object_urls fst snd].

Ltac js_unfold_in H :=
  cbv [verb_request refresh_request emit with_jar clear_session renew_session
       trace jar clock object_urls fst snd] in H.

Section Session.

Lemma stored_insert_eq (cookies : gmap string Cookie) k c :
  stored (<[k := c]> cookies) k = value c.
Proof. unfold stored. by rewrite lookup_insert_eq. Qed.

Lemma stored_insert_ne (cookies : gmap string Cookie) k k' c :
  k <> k' -> stored (<[k := c]> cookies) k' = stored cookies k'.
Proof. intros Hne. unfold stored. by rewrite lookup_insert_ne. Qed.

Lemma stored_delete_eq (cookies : gmap string Cookie) k :
  stored (delete k cookies) k = "".
Proof. unfold stored. by rewrite lookup_delete_eq. Qed.

Lemma lookup_clear_session (cookies : gmap string Cookie) k :
  clear_session cookies !! k = if bool_decide (k ∈ session_keys) then None else cookies !! k.
Proof.
  unfold clear_session, session_keys.
  rewrite !lookup_delete.
  destruct (bool_decide_reflect
    (k ∈ ["is_loggedin"; "logged_user"; "role"; "access_token"; "refresh_token"]))
    as [Hin | Hout].
  - rewrite !elem_of_cons, elem_of_nil in Hin.
    repeat case_decide; try reflexivity. intuition congruence.
  - rewrite !elem_of_cons, elem_of_nil in Hout.
    repeat case_decide; try reflexivity; subst; exfalso; apply Hout; auto 10.
Qed.

Lemma stored_clear_session (cookies : gmap string Cookie) k :
  k ∈ session_keys -> stored (clear_session cookies) k = "".
Proof.
  intros Hk. unfold stored. rewrite lookup_clear_session.
  by rewrite bool_decide_eq_true_2.
Qed.

Lemma stored_renew_access fresh until (cookies : gmap string Cookie) :
  stored (renew_session fresh until cookies) "access_token" = access_token fresh.
Proof.
  unfold renew_session.
  rewrite stored_insert_ne by discriminate. apply stored_insert_eq.
Qed.

Lemma stored_renew_refresh fresh until (cookies : gmap string Cookie) :
  stored (renew_session fresh until cookies) "refresh_token" = refresh_token fresh.
Proof. unfold renew_session. apply stored_insert_eq. Qed.

End Session.

Section Behaviour.

Variable apiUrl : string.
Variable srv : Backend.

(** *** Logout *)

Lemma logoutUser_run w :
  logoutUser w =
    (emit (Reloaded (clear_session (jar w))) (with_jar clear_session w), Normal tt).
Proof. reflexivity. Qed.

(** *** The refresh routine, by the answer to its request *)

Lemma refreshing_replied w st fresh :
  oauth_reply srv (trace w) (refresh_request apiUrl (jar w)) = Replied st fresh ->
  refreshing apiUrl srv w =
    (with_jar (renew_session fresh (plus_days (clock w) 30))
       (emit (Sent (refresh_request apiUrl (jar w))) w),
     Next JsUndefined).
Proof.
  destruct w as [cookies today urls history].
  intros Hreply. js_unfold_in Hreply. js_unfold. rewrite Hreply. reflexivity.
Qed.

Lemma refreshing_rejected w payload :
  oauth_reply srv (trace w) (refresh_request apiUrl (jar w)) = Failed 401 payload ->
  refreshing apiUrl srv w =
    (emit (Navigated ["/401"])
       (emit (Reloaded (clear_session (jar w)))
          (with_jar clear_session
             (emit (Sent (refresh_request apiUrl (jar w))) w))),
     Next JsNull).
Proof.
  destruct w as [cookies today urls history].
  intros Hreply. js_unfold_in Hreply. js_unfold. rewrite Hreply. reflexivity.
Qed.

Lemma refreshing_failed w status payload :
  status <> 401 ->
  oauth_reply srv (trace w) (refresh_request apiUrl (jar w)) = Failed status payload ->
  refreshing apiUrl srv w =
    (emit (Navigated ["/400"]) (emit (Sent (refresh_request apiUrl (jar w))) w),
     Next JsNull).
Proof.
  destruct w as [cookies today urls history].
  intros Hother Hreply. js_unfold_in Hreply. js_unfold. rewrite Hreply.
  destruct (Z.eqb_spec status 401) as [Heq | _]; [contradiction | reflexivity].
Qed.

(** The routine never errors: whatever the answer, its observable emits. *)
Lemma refreshing_emits w : exists w' v, refreshing apiUrl srv w = (w', Next v).
Proof.
  destruct (oauth_reply srv (trace w) (refresh_request apiUrl (jar w)))
    as [st fresh | status payload] eqn:Hreply.
  - eexists _, _. apply (refreshing_replied _ _ _ Hreply).
  - destruct (Z.eq_dec status 401) as [-> | Hother].
    + eexists _, _. apply (refreshing_rejected _ _ Hreply).
    + eexists _, _. apply (refreshing_failed _ _ _ Hother Hreply).
Qed.

(** *** A verb operation, by the answer to its first request *)

Lemma invoke_replied m uri payload w st content :
  json_reply srv (trace w) (verb_request apiUrl m uri payload (stored (jar w) "access_token"))
    = Replied st content ->
  invoke apiUrl srv m uri payload probe w =
    (emit (Called (JsNumber 200) content (jar w))
       (emit (Sent (verb_request apiUrl m uri payload (stored (jar w) "access_token"))) w),
     Normal tt).
Proof.
  destruct w as [cookies today urls history].
  intros Hreply.
  destruct m; js_unfold_in Hreply; js_unfold; rewrite Hreply; reflexivity.
Qed.

Lemma invoke_failed m uri payload w status error message :
  status <> 401 ->
  json_reply srv (trace w) (verb_request apiUrl m uri payload (stored (jar w) "access_token"))
    = Failed status error ->
  message_of error = Normal message ->
  invoke apiUrl srv m uri payload probe w =
    (emit (Called (JsNumber status) message (jar w))
       (emit (Sent (verb_request apiUrl m uri payload (stored (jar w) "access_token"))) w),
     Normal tt).
Proof.
  destruct w as [cookies today urls history].
  intros Hother Hreply Hmessage.
  destruct m; js_unfold_in Hreply; js_unfold; rewrite Hreply;
    (destruct (Z.eqb_spec status 401) as [Heq | _]; [contradiction |]);
    rewrite Hmessage; reflexivity.
Qed.

Lemma invoke_failed_unreadable m uri payload w status error thrown :
  status <> 401 ->
  json_reply srv (trace w) (verb_request apiUrl m uri payload (stored (jar w) "access_token"))
    = Failed status error ->
  message_of error = Throw thrown ->
  invoke apiUrl srv m uri payload probe w =
    (emit (Unhandled thrown)
       (emit (Sent (verb_request apiUrl m uri payload (stored (jar w) "access_token"))) w),
     Normal tt).
Proof.
  destruct w as [cookies today urls history].
  intros Hother Hreply Hmessage.
  destruct m; js_unfold_in Hreply; js_unfold; rewrite Hreply;
    (destruct (Z.eqb_spec status 401) as [Heq | _]; [contradiction |]);
    rewrite Hmessage; reflexivity.
Qed.

(** After a 401 the refresh routine runs, and whatever it did, the request is
    sent again with the access token then in the cookie; the closure gets
    the answer to that second request. *)
Lemma invoke_unauthorized m uri payload w error :
  json_reply srv (trace w) (verb_request apiUrl m uri payload (stored (jar w) "access_token"))
    = Failed 401 error ->
  let first := verb_request apiUrl m uri payload (stored (jar w) "access_token") in
  let w2 := fst (refreshing apiUrl srv (emit (Sent first) w)) in
  let second := verb_request apiUrl m uri payload (stored (jar w2) "access_token") in
  invoke apiUrl srv m uri payload probe w =
    (emit (retry_call (json_reply srv (trace w2) second) (jar w2))
       (emit (Sent second) w2),
     Normal tt).
Proof.
  destruct w as [cookies today urls history].
  intros Hreply first w2 second. subst first w2 second.
  destruct m; js_unfold_in Hreply; js_unfold; rewrite Hreply;
    cbn [Z.eqb Pos.eqb];
    (match goal with
     | |- context [oauth_reply srv ?t ?r] =>
         destruct (oauth_reply srv t r) as [st fresh | status payload2];
         [| destruct (Z.eqb status 401)]
     end);
    (match goal with
     | |- context [json_reply srv ?t ?r] => destruct (json_reply srv t r)
     end);
    reflexivity.
Qed.

End Behaviour.

(** * The claims *)

Lemma two_events {A} (l : list A) (a b : A) :
  ((l ++ [a]) ++ [b] = l ++ [a; b])%list.
Proof. rewrite <- app_assoc. reflexivity. Qed.

Lemma three_events {A} (l : list A) (a b c : A) :
  (((l ++ [a]) ++ [b]) ++ [c] = l ++ [a; b; c])%list.
Proof. rewrite <- !app_assoc. reflexivity. Qed.

Lemma four_events {A} (l : list A) (a b c d : A) :
  ((((l ++ [a]) ++ [b]) ++ [c]) ++ [d] = l ++ [a; b; c; d])%list.
Proof. rewrite <- !app_assoc. reflexivity. Qed.

(** C7. Whatever the session was, after [logoutUser] reading any of the five
    session cookies gives the empty string, and the one thing the call did to
    its surroundings is the page reload, which finds the cookies cleared. *)
Theorem logout_leaves_no_session_field (w : World) :
  exists w',
    logoutUser w = (w', Normal tt) /\
    Forall (fun k => cookie_get k w' = (w', Normal "")) session_keys /\
    trace w' = trace w ++ [Reloaded (jar w')].
Proof.
  eexists. split; [apply logoutUser_run |]. split.
  - apply Forall_forall. intros k Hk. unfold cookie_get.
    cbn [jar emit with_jar]. by rewrite stored_clear_session.
  - reflexivity.
Qed.

(** C4. When the refresh request is answered with a token pair, the routine
    stores the new access token under [access_token] and the new refresh
    token under [refresh_token], both expiring 30 days after the clock read
    at the call, touches no other cookie, and shows its surroundings nothing
    but its request; and in a verb operation whose 401 led to this refresh,
    every call of the closure that the operation makes sees both new
    cookies. *)
Theorem refresh_success_writes_both_tokens
    (apiUrl : string) (srv : Backend) (w : World) (st : Z) (fresh : OAuthResponse) :
  oauth_reply srv (trace w) (refresh_request apiUrl (jar w)) = Replied st fresh ->
  let until := plus_days (clock w) 30 in
  let access := {| value := access_token fresh; expires := until; path := "/" |} in
  let refresh := {| value := refresh_token fresh; expires := until; path := "/" |} in
  (exists w',
     refreshing apiUrl srv w = (w', Next JsUndefined) /\
     jar w' !! "access_token" = Some access /\
     jar w' !! "refresh_token" = Some refresh /\
     (forall k, k <> "access_token" -> k <> "refresh_token" -> jar w' !! k = jar w !! k) /\
     trace w' = trace w ++ [Sent (refresh_request apiUrl (jar w))]) /\
  (forall m uri payload w0 error,
     let first := verb_request apiUrl m uri payload (stored (jar w0) "access_token") in
     json_reply srv (trace w0) first = Failed 401 error ->
     w = emit (Sent first) w0 ->
     forall status data seen,
       In (Called status data seen) (trace (fst (invoke apiUrl srv m uri payload probe w0))) ->
       In (Called status data seen) (trace w0) \/
       (seen !! "access_token" = Some access /\ seen !! "refresh_token" = Some refresh)).
Proof.
  intros Hreply until access refresh.
  assert (Haccess : renew_session fresh until (jar w) !! "access_token" = Some access).
  { unfold renew_session. rewrite lookup_insert_ne by discriminate.
    apply lookup_insert_eq. }
  assert (Hrefresh : renew_session fresh until (jar w) !! "refresh_token" = Some refresh).
  { unfold renew_session. apply lookup_insert_eq. }
  split.
  - eexists. split; [apply (refreshing_replied _ _ _ _ _ Hreply) |].
    cbn [jar trace emit with_jar].
    repeat split; try assumption.
    intros k Ha Hr. unfold renew_session.
    rewrite !lookup_insert_ne by congruence. reflexivity.
  - intros m uri payload w0 error first Hfirst -> status data seen.
    rewrite (invoke_unauthorized _ _ _ _ _ _ _ Hfirst).
    fold first.
    rewrite (refreshing_replied _ _ _ _ _ Hreply).
    cbn [fst jar trace emit with_jar clock].
    rewrite four_events, in_app_iff.
    intros [Hold | Hnew]; [left; exact Hold | right].
    cbn [In] in Hnew.
    destruct Hnew as [Hx | [Hx | [Hx | [Hx | []]]]]; try discriminate Hx.
    unfold retry_call in Hx.
    match type of Hx with
    | context [json_reply srv ?t ?r] => destruct (json_reply srv t r)
    end; injection Hx as <- <- <-; by split.
Qed.

Lemma refresh_success_writes_both_tokens_witness :
  let first := verb_request Scenario.api GET "/profile" JsNull "A1" in
  let w := emit (Sent first) Scenario.signed_in in
  let fresh := {| access_token := "A2"; refresh_token := "R2" |} in
  let until := {| day_number := 20033; time_of_day := 1000 |} in
  oauth_reply Scenario.renewing (trace w) (refresh_request Scenario.api (jar w))
    = Replied 200 fresh /\
  json_reply Scenario.renewing (trace Scenario.signed_in) first
    = Failed 401 Scenario.expired /\
  jar (fst (refreshing Scenario.api Scenario.renewing w)) !! "access_token"
    = Some {| value := "A2"; expires := until; path := "/" |} /\
  jar (fst (refreshing Scenario.api Scenario.renewing w)) !! "refresh_token"
    = Some {| value := "R2"; expires := until; path := "/" |} /\
  forall status data seen,
    In (Called status data seen)
       (trace (fst (invoke Scenario.api Scenario.renewing GET "/profile" JsNull probe
                      Scenario.signed_in))) ->
    seen !! "access_token" = Some {| value := "A2"; expires := until; path := "/" |} /\
    seen !! "refresh_token" = Some {| value := "R2"; expires := until; path := "/" |}.
Proof.
  intros first w fresh until.
  split; [reflexivity |]. split; [reflexivity |].
  destruct (refresh_success_writes_both_tokens Scenario.api Scenario.renewing w 200
              fresh eq_refl)
    as [(w' & Hrun & Haccess & Hrefresh & _) Hseen].
  rewrite Hrun. cbn [fst].
  split; [exact Haccess |]. split; [exact Hrefresh |].
  intros status data seen Hin.
  destruct (Hseen GET "/profile" JsNull Scenario.signed_in Scenario.expired
              eq_refl eq_refl status data seen Hin) as [[] | Hboth].
  exact Hboth.
Defined.

(** C5. When the refresh request fails with 401, the routine deletes the five
    session cookies, reloads the page and sends the router to ["/401"], the
    must-re-authenticate page. *)
Theorem refresh_rejection_clears_session
    (apiUrl : string) (srv : Backend) (w : World) (payload : JsValue) :
  oauth_reply srv (trace w) (refresh_request apiUrl (jar w)) = Failed 401 payload ->
  exists w',
    refreshing apiUrl srv w = (w', Next JsNull) /\
    Forall (fun k => jar w' !! k = None /\ cookie_get k w' = (w', Normal "")) session_keys /\
    trace w' = trace w ++
      [Sent (refresh_request apiUrl (jar w)); Reloaded (jar w'); Navigated ["/401"]].
Proof.
  intros Hreply. eexists. split; [apply (refreshing_rejected _ _ _ _ Hreply) |].
  split.
  - apply Forall_forall. intros k Hk. unfold cookie_get.
    cbn [jar emit with_jar]. split.
    + rewrite lookup_clear_session. by rewrite bool_decide_eq_true_2.
    + by rewrite stored_clear_session.
  - cbn [jar trace emit with_jar]. apply three_events.
Qed.

Lemma refresh_rejection_clears_session_witness :
  oauth_reply Scenario.rejecting (trace Scenario.signed_in)
      (refresh_request Scenario.api (jar Scenario.signed_in))
    = Failed 401 Scenario.revoked /\
  exists w',
    refreshing Scenario.api Scenario.rejecting Scenario.signed_in = (w', Next JsNull) /\
    Forall (fun k => jar w' !! k = None /\ cookie_get k w' = (w', Normal "")) session_keys /\
    trace w' = trace Scenario.signed_in ++
      [Sent (refresh_request Scenario.api (jar Scenario.signed_in));
       Reloaded (jar w'); Navigated ["/401"]].
Proof.
  split; [reflexivity |].
  apply (refresh_rejection_clears_session Scenario.api Scenario.rejecting
           Scenario.signed_in Scenario.revoked).
  reflexivity.
Defined.

(** C6. When the refresh request fails with a status other than 401, the
    routine sends the router to ["/400"], the bad-request page, and the
    cookie jar is the one it started with. *)
Theorem refresh_failure_leaves_session
    (apiUrl : string) (srv : Backend) (w : World) (status : Z) (payload : JsValue) :
  status <> 401 ->
  oauth_reply srv (trace w) (refresh_request apiUrl (jar w)) = Failed status payload ->
  exists w',
    refreshing apiUrl srv w = (w', Next JsNull) /\
    jar w' = jar w /\
    trace w' = trace w ++ [Sent (refresh_request apiUrl (jar w)); Navigated ["/400"]].
Proof.
  intros Hother Hreply. eexists.
  split; [apply (refreshing_failed _ _ _ _ _ Hother Hreply) |].
  split; [reflexivity |].
  cbn [jar trace emit with_jar]. apply two_events.
Qed.

Lemma refresh_failure_leaves_session_witness :
  400 <> 401 /\
  oauth_reply Scenario.refusing (trace Scenario.signed_in)
      (refresh_request Scenario.api (jar Scenario.signed_in))
    = Failed 400 Scenario.malformed /\
  exists w',
    refreshing Scenario.api Scenario.refusing Scenario.signed_in = (w', Next JsNull) /\
    jar w' = jar Scenario.signed_in /\
    trace w' = trace Scenario.signed_in ++
      [Sent (refresh_request Scenario.api (jar Scenario.signed_in)); Navigated ["/400"]].
Proof.
  split; [lia |]. split; [reflexivity |].
  apply (refresh_failure_leaves_session Scenario.api Scenario.refusing
           Scenario.signed_in 400 Scenario.malformed); [lia | reflexivity].
Defined.

(** C1. When the first request of a verb operation fails with 401 and the
    refresh request is answered with a token pair, the operation sends three
    requests and no more: the first one, one refresh, and the first one again
    with the new access token as bearer.  The closure is called once, with
    200 and the body when the second attempt succeeded, with the status and
    the body of the failure when it failed, whatever that status is (401
    included: no further refresh follows). *)
Theorem retry_once_with_new_token
    (apiUrl : string) (srv : Backend) (m : Method) (uri : string) (payload : JsValue)
    (w : World) (error : JsValue) (st : Z) (fresh : OAuthResponse) :
  let first := verb_request apiUrl m uri payload (stored (jar w) "access_token") in
  let renewal := refresh_request apiUrl (jar w) in
  let second := verb_request apiUrl m uri payload (access_token fresh) in
  let answer := json_reply srv (trace w ++ [Sent first; Sent renewal]) second in
  json_reply srv (trace w) first = Failed 401 error ->
  oauth_reply srv (trace w ++ [Sent first]) renewal = Replied st fresh ->
  exists w',
    invoke apiUrl srv m uri payload probe w = (w', Normal tt) /\
    jar w' = renew_session fresh (plus_days (clock w) 30) (jar w) /\
    (forall st' content, answer = Replied st' content ->
       trace w' = trace w ++
         [Sent first; Sent renewal; Sent second; Called (JsNumber 200) content (jar w')]) /\
    (forall status error', answer = Failed status error' ->
       trace w' = trace w ++
         [Sent first; Sent renewal; Sent second; Called (JsNumber status) error' (jar w')]).
Proof.
  intros first renewal second answer Hfirst Hrenewal.
  pose proof (invoke_unauthorized apiUrl srv m uri payload w error Hfirst) as Hrun.
  cbv zeta in Hrun. fold first in Hrun.
  assert (Hrefresh : refreshing apiUrl srv (emit (Sent first) w) =
            (with_jar (renew_session fresh (plus_days (clock w) 30))
               (emit (Sent renewal) (emit (Sent first) w)), Next JsUndefined)).
  { apply (refreshing_replied apiUrl srv (emit (Sent first) w) st fresh). exact Hrenewal. }
  rewrite Hrefresh in Hrun. cbn [fst jar trace emit with_jar] in Hrun.
  rewrite stored_renew_access in Hrun. fold second in Hrun.
  rewrite two_events in Hrun. fold answer in Hrun.
  eexists. split; [exact Hrun |]. cbn [jar trace].
  split; [reflexivity |].
  split; intros ? ? Hanswer; rewrite Hanswer; cbn [retry_call]; apply four_events.
Qed.

Lemma retry_once_with_new_token_witness :
  let first := verb_request Scenario.api GET "/profile" JsNull "A1" in
  let renewal := refresh_request Scenario.api Scenario.session in
  let second := verb_request Scenario.api GET "/profile" JsNull "A2" in
  json_reply Scenario.renewing [] first = Failed 401 Scenario.expired /\
  oauth_reply Scenario.renewing [Sent first] renewal
    = Replied 200 {| access_token := "A2"; refresh_token := "R2" |} /\
  exists w',
    invoke Scenario.api Scenario.renewing GET "/profile" JsNull probe Scenario.signed_in
      = (w', Normal tt) /\
    trace w' =
      [Sent first; Sent renewal; Sent second; Called (JsNumber 200) Scenario.profile (jar w')].
Proof.
  intros first renewal second.
  split; [reflexivity |]. split; [reflexivity |].
  destruct (retry_once_with_new_token Scenario.api Scenario.renewing GET "/profile" JsNull
              Scenario.signed_in Scenario.expired 200
              {| access_token := "A2"; refresh_token := "R2" |} eq_refl eq_refl)
    as (w' & Hrun & _ & Hgood & _).
  exists w'. split; [exact Hrun |].
  apply (Hgood 201 Scenario.profile). reflexivity.
Defined.

(** ** Counting closure calls *)

Lemma calls_of_app (t u : list Event) : calls_of (t ++ u) = calls_of t ++ calls_of u.
Proof.
  induction t as [| e t IH]; [reflexivity |].
  destruct e; cbn [calls_of app]; rewrite IH; reflexivity.
Qed.

Lemma requests_of_app (t u : list Event) :
  requests_of (t ++ u) = requests_of t ++ requests_of u.
Proof.
  induction t as [| e t IH]; [reflexivity |].
  destruct e; cbn [requests_of app]; rewrite IH; reflexivity.
Qed.

Lemma calls_of_retry_call answer seen :
  exists status data, calls_of [retry_call answer seen] = [(status, data)].
Proof. destruct answer; eexists _, _; reflexivity. Qed.

(** X4. A verb operation calls the closure exactly once on every path but
    one: a first failure other than 401 whose body is not truthy (empty,
    [null], [0], [false] or the empty string), which the HTTP client delivers
    as [null]. *)
Lemma closure_called_once_when_readable
    (apiUrl : string) (srv : Backend) (m : Method) (uri : string) (payload : JsValue)
    (w : World) :
  let first := verb_request apiUrl m uri payload (stored (jar w) "access_token") in
  (forall status error,
     json_reply srv (trace w) first = Failed status error -> status <> 401 ->
     truthy error = true) ->
  length (calls_of (trace (fst (invoke apiUrl srv m uri payload probe w))))
    = S (length (calls_of (trace w))).
Proof.
  intros first Hreadable.
  destruct (json_reply srv (trace w) first) as [st content | status error] eqn:Hfirst.
  - rewrite (invoke_replied _ _ _ _ _ _ _ _ Hfirst). cbn [fst trace emit].
    rewrite !calls_of_app, !length_app. cbn. lia.
  - destruct (Z.eq_dec status 401) as [-> | Hother].
    + rewrite (invoke_unauthorized _ _ _ _ _ _ _ Hfirst). cbn [fst trace emit].
      destruct (refreshing_emits apiUrl srv (emit (Sent first) w)) as (w2 & v & Hw2).
      fold first. rewrite Hw2. cbn [fst].
      assert (Hkept : calls_of (trace w2) = calls_of (trace w)).
      { revert Hw2.
        destruct (oauth_reply srv (trace (emit (Sent first) w))
                    (refresh_request apiUrl (jar (emit (Sent first) w))))
          as [st fresh | status payload2] eqn:Hrenewal.
        - rewrite (refreshing_replied _ _ _ _ _ Hrenewal). intros [= <- _].
          cbn [trace emit with_jar]. rewrite !calls_of_app. cbn. by rewrite !app_nil_r.
        - destruct (Z.eq_dec status 401) as [-> | Hother].
          + rewrite (refreshing_rejected _ _ _ _ Hrenewal). intros [= <- _].
            cbn [trace emit with_jar]. rewrite !calls_of_app. cbn. by rewrite !app_nil_r.
          + rewrite (refreshing_failed _ _ _ _ _ Hother Hrenewal). intros [= <- _].
            cbn [trace emit with_jar]. rewrite !calls_of_app. cbn. by rewrite !app_nil_r. }
      rewrite !calls_of_app, Hkept.
      destruct (calls_of_retry_call
                  (json_reply srv (trace w2)
                     (verb_request apiUrl m uri payload (stored (jar w2) "access_token")))
                  (jar w2)) as (status & data & ->).
      rewrite !length_app. cbn. lia.
    + pose proof (Hreadable status error eq_refl Hother) as Htruthy.
      assert (Hmessage : exists message, message_of error = Normal message).
      { destruct error; try (eexists; reflexivity); discriminate Htruthy. }
      destruct Hmessage as [message Hmessage].
      rewrite (invoke_failed _ _ _ _ _ _ _ _ _ Hother Hfirst Hmessage).
      cbn [fst trace emit]. rewrite !calls_of_app, !length_app. cbn. lia.
Qed.

(** C3. On a first failure other than 401 with an empty body, reading
    [error.error.message] throws before the closure is reached: each of the
    four verb operations sends its request, calls the closure zero times and
    leaves the exception to the library's unhandled-error report. *)
Theorem closure_never_called_on_empty_error_body (m : Method) :
  let w' := fst (invoke Scenario.api Scenario.broken m "/profile" JsNull probe
                   Scenario.signed_in) in
  calls_of (trace w') = [] /\
  trace w' =
    [Sent (verb_request Scenario.api m "/profile" JsNull "A1");
     Unhandled (TypeError "Cannot read properties of null (reading 'message')")].
Proof. destruct m; split; reflexivity. Qed.

(** The second attempt's branch hands every error to the closure, the
    closure's own included: a closure that throws on the 200 call is called
    a second time, with [undefined] twice.  On the first attempt's branch the
    same closure is called once. *)
Lemma failing_closure_called_again_after_retry (m : Method) :
  calls_of (trace (fst (invoke Scenario.api Scenario.renewing m "/profile" JsNull fragile
                          Scenario.signed_in)))
    = [(JsNumber 200, Scenario.profile); (JsUndefined, JsUndefined)] /\
  calls_of (trace (fst (invoke Scenario.api Scenario.renewing m "/profile" JsNull fragile
                          Scenario.up_to_date)))
    = [(JsNumber 200, Scenario.profile)].
Proof. destruct m; split; reflexivity. Qed.

(** ** A failed refresh *)

(** X5. The refresh routine turns its own failure into an ordinary emission,
    so the retry branch of a verb operation goes on: the request is sent
    again and the closure gets the answer to it.  After a failure other than
    401 the cookies are the old ones and the very same request leaves
    again. *)
Lemma retry_follows_failed_refresh
    (apiUrl : string) (srv : Backend) (m : Method) (uri : string) (payload : JsValue)
    (w : World) (error : JsValue) (status : Z) (refused : JsValue) :
  let first := verb_request apiUrl m uri payload (stored (jar w) "access_token") in
  let renewal := refresh_request apiUrl (jar w) in
  let history := trace w ++ [Sent first; Sent renewal; Navigated ["/400"]] in
  json_reply srv (trace w) first = Failed 401 error ->
  status <> 401 ->
  oauth_reply srv (trace w ++ [Sent first]) renewal = Failed status refused ->
  invoke apiUrl srv m uri payload probe w =
    (emit (retry_call (json_reply srv history first) (jar w))
       (emit (Sent first)
          (emit (Navigated ["/400"]) (emit (Sent renewal) (emit (Sent first) w)))),
     Normal tt).
Proof.
  intros first renewal history Hfirst Hother Hrenewal.
  rewrite (invoke_unauthorized _ _ _ _ _ _ _ Hfirst). fold first.
  rewrite (refreshing_failed apiUrl srv (emit (Sent first) w) status refused Hother Hrenewal).
  cbn [fst jar trace emit]. fold first renewal.
  rewrite three_events. reflexivity.
Qed.

(** X6. After a 401 from the refresh endpoint the session is gone, and the
    request leaves again with an empty bearer token. *)
Lemma retry_follows_rejected_refresh
    (apiUrl : string) (srv : Backend) (m : Method) (uri : string) (payload : JsValue)
    (w : World) (error : JsValue) (refused : JsValue) :
  let first := verb_request apiUrl m uri payload (stored (jar w) "access_token") in
  let renewal := refresh_request apiUrl (jar w) in
  let second := verb_request apiUrl m uri payload "" in
  let gone := clear_session (jar w) in
  let history :=
    trace w ++ [Sent first; Sent renewal; Reloaded gone; Navigated ["/401"]] in
  json_reply srv (trace w) first = Failed 401 error ->
  oauth_reply srv (trace w ++ [Sent first]) renewal = Failed 401 refused ->
  invoke apiUrl srv m uri payload probe w =
    (emit (retry_call (json_reply srv history second) gone)
       (emit (Sent second)
          (emit (Navigated ["/401"])
             (emit (Reloaded gone)
                (with_jar clear_session (emit (Sent renewal) (emit (Sent first) w)))))),
     Normal tt).
Proof.
  intros first renewal second gone history Hfirst Hrenewal.
  rewrite (invoke_unauthorized _ _ _ _ _ _ _ Hfirst). fold first.
  rewrite (refreshing_rejected apiUrl srv (emit (Sent first) w) refused Hrenewal).
  cbn [fst jar trace emit with_jar].
  rewrite stored_clear_session by (unfold session_keys; set_solver).
  fold first renewal gone second. rewrite four_events. reflexivity.
Qed.

(** C2. The first request fails with 401 and the refresh request fails with
    400 and its own body: each verb operation sends its request a second
    time, and the closure receives the 401 and the body of that second
    failure; the status and the body of the refresh failure reach no closure
    call. *)
Theorem refresh_failure_not_delivered (m : Method) :
  let first := verb_request Scenario.api m "/profile" JsNull "A1" in
  let renewal := refresh_request Scenario.api Scenario.session in
  let w' := fst (invoke Scenario.api Scenario.refusing m "/profile" JsNull probe
                   Scenario.signed_in) in
  oauth_reply Scenario.refusing [Sent first] renewal = Failed 400 Scenario.malformed /\
  requests_of (trace w') = [first; renewal; first] /\
  calls_of (trace w') = [(JsNumber 401, Scenario.expired)] /\
  calls_of (trace w') <> [(JsNumber 400, Scenario.malformed)].
Proof. destruct m; repeat split; try reflexivity; discriminate. Qed.

(** The same with a refresh that fails with 401: the session cookies are
    deleted, the request still leaves a second time, now with an empty
    bearer token, and the closure receives the answer to it. *)
Lemma refresh_rejection_not_delivered (m : Method) :
  let w' := fst (invoke Scenario.api Scenario.rejecting m "/profile" JsNull probe
                   Scenario.signed_in) in
  requests_of (trace w') =
    [verb_request Scenario.api m "/profile" JsNull "A1";
     refresh_request Scenario.api Scenario.session;
     verb_request Scenario.api m "/profile" JsNull ""] /\
  calls_of (trace w') = [(JsNumber 401, Scenario.expired)] /\
  calls_of (trace w') <> [(JsNumber 401, Scenario.revoked)].
Proof. destruct m; repeat split; try reflexivity; discriminate. Qed.

(** ** A first failure other than 401 *)

(** C8, as the code has it.  When the first request fails with a status other
    than 401 and the body of the failure is truthy (an object, a non-empty
    string, a number other than 0, or [true]; any other body reaches the
    service as [null]), the operation sends nothing else (no refresh), leaves
    the cookies alone and calls the closure once, with the status and with
    the [message] property of the body. *)
Theorem other_failure_delivers_message
    (apiUrl : string) (srv : Backend) (m : Method) (uri : string) (payload : JsValue)
    (w : World) (status : Z) (error message : JsValue) :
  let first := verb_request apiUrl m uri payload (stored (jar w) "access_token") in
  status <> 401 ->
  json_reply srv (trace w) first = Failed status error ->
  truthy error = true ->
  message_of error = Normal message ->
  exists w',
    invoke apiUrl srv m uri payload probe w = (w', Normal tt) /\
    jar w' = jar w /\
    trace w' = trace w ++ [Sent first; Called (JsNumber status) message (jar w)].
Proof.
  intros first Hother Hfirst _ Hmessage. eexists.
  split; [apply (invoke_failed _ _ _ _ _ _ _ _ _ Hother Hfirst Hmessage) |].
  split; [reflexivity |].
  cbn [trace emit]. apply two_events.
Qed.

Lemma other_failure_delivers_message_witness :
  let first := verb_request Scenario.api DELETE "/missing" JsNull "A1" in
  404 <> 401 /\
  json_reply Scenario.absent [] first = Failed 404 Scenario.not_found /\
  truthy Scenario.not_found = true /\
  message_of Scenario.not_found = Normal (JsString "Not Found") /\
  exists w',
    invoke Scenario.api Scenario.absent DELETE "/missing" JsNull probe Scenario.signed_in
      = (w', Normal tt) /\
    jar w' = Scenario.session /\
    trace w' = [Sent first; Called (JsNumber 404) (JsString "Not Found") Scenario.session].
Proof.
  intros first.
  split; [lia |]. split; [reflexivity |]. split; [reflexivity |]. split; [reflexivity |].
  apply (other_failure_delivers_message Scenario.api Scenario.absent DELETE "/missing"
           JsNull Scenario.signed_in 404 Scenario.not_found (JsString "Not Found"));
    [lia | reflexivity | reflexivity | reflexivity].
Defined.

(** C8, as stated, fails: a 404 whose body is an object with a [message] and
    a [path] reaches the closure as the message string, not as the body. *)
Lemma other_failure_payload_not_verbatim :
  let w' := fst (invoke Scenario.api Scenario.absent DELETE "/missing" JsNull probe
                   Scenario.signed_in) in
  json_reply Scenario.absent []
      (verb_request Scenario.api DELETE "/missing" JsNull "A1")
    = Failed 404 Scenario.not_found /\
  calls_of (trace w') = [(JsNumber 404, JsString "Not Found")] /\
  calls_of (trace w') <> [(JsNumber 404, Scenario.not_found)].
Proof. repeat split; try reflexivity; discriminate. Qed.

(** ** The download *)

(** What the pipeline of [PostDownload] does once something subscribes to
    it. *)
Lemma download_pipeline_subscribed
    (apiUrl : string) (srv : Backend) (uri : string) (payload : JsValue) (w : World) :
  let request :=
    {| method := POST; url := apiUrl +:+ uri; body := Some payload;
       headers := [("Accept", xlsx)]; responseType := Blob |} in
  (forall st content, blob_reply srv (trace w) request = Replied st content ->
     trace (fst (subscribe (PostDownload_pipeline apiUrl srv uri payload) w)) =
       trace w ++ [Sent request; Opened ("blob:" +:+ pretty (length (object_urls w)))]) /\
  (forall status error, blob_reply srv (trace w) request = Failed status error ->
     trace (fst (subscribe (PostDownload_pipeline apiUrl srv uri payload) w)) =
       trace w ++ [Sent request; Logged (HttpErrorResponse status error)]).
Proof.
  destruct w as [cookies today urls history]. intros request.
  split; intros ? ? Hreply; subst request;
    cbv [subscribe PostDownload_pipeline map catchError http_post_blob http_call run
         bind ret createObjectURL window_open console_log of_value emit
         opt_headers opt_responseType trace jar clock object_urls fst] in *;
    rewrite Hreply; apply two_events.
Qed.

(** C9. [PostDownload] builds its pipeline and drops it: nothing subscribes,
    so for every target, payload and remote side the call changes nothing;
    no request is sent, no window is opened, nothing is logged. *)
Theorem download_never_subscribed
    (apiUrl : string) (srv : Backend) (uri : string) (payload : JsValue) (w : World) :
  PostDownload apiUrl srv uri payload w = (w, Normal tt) /\
  requests_of (trace (fst (PostDownload Scenario.api Scenario.renewing "/report" JsNull
                             Scenario.signed_in))) = [].
Proof. split; reflexivity. Qed.

(** ** Success *)

(** C10. Whatever status line a successful response carried, the closure is
    called with the number 200 and the body: for the first request, and for
    the second attempt that follows a 401 and the run of the refresh
    routine. *)
Theorem success_status_is_200
    (apiUrl : string) (srv : Backend) (m : Method) (uri : string) (payload : JsValue)
    (w : World) :
  let first := verb_request apiUrl m uri payload (stored (jar w) "access_token") in
  (forall st content,
     json_reply srv (trace w) first = Replied st content ->
     exists w',
       invoke apiUrl srv m uri payload probe w = (w', Normal tt) /\
       trace w' = trace w ++ [Sent first; Called (JsNumber 200) content (jar w)]) /\
  (forall error st content,
     json_reply srv (trace w) first = Failed 401 error ->
     let w2 := fst (refreshing apiUrl srv (emit (Sent first) w)) in
     let second := verb_request apiUrl m uri payload (stored (jar w2) "access_token") in
     json_reply srv (trace w2) second = Replied st content ->
     exists w',
       invoke apiUrl srv m uri payload probe w = (w', Normal tt) /\
       trace w' = trace w2 ++ [Sent second; Called (JsNumber 200) content (jar w2)]).
Proof.
  intros first. split.
  - intros st content Hfirst. eexists.
    split; [apply (invoke_replied _ _ _ _ _ _ _ _ Hfirst) |].
    cbn [trace emit]. apply two_events.
  - intros error st content Hfirst w2 second Hsecond. eexists.
    split; [apply (invoke_unauthorized _ _ _ _ _ _ _ Hfirst) |].
    fold first w2 second. rewrite Hsecond.
    cbn [trace emit retry_call]. apply two_events.
Qed.

Lemma success_status_is_200_witness :
  let direct := verb_request Scenario.api PUT "/profile" Scenario.profile "A2" in
  let first := verb_request Scenario.api PUT "/profile" Scenario.profile "A1" in
  let renewal := refresh_request Scenario.api Scenario.session in
  json_reply Scenario.renewing [] direct = Replied 201 Scenario.profile /\
  calls_of (trace (fst (invoke Scenario.api Scenario.renewing PUT "/profile"
                          Scenario.profile probe Scenario.up_to_date)))
    = [(JsNumber 200, Scenario.profile)] /\
  json_reply Scenario.renewing [] first = Failed 401 Scenario.expired /\
  json_reply Scenario.renewing [Sent first; Sent renewal] direct
    = Replied 201 Scenario.profile /\
  calls_of (trace (fst (invoke Scenario.api Scenario.renewing PUT "/profile"
                          Scenario.profile probe Scenario.signed_in)))
    = [(JsNumber 200, Scenario.profile)].
Proof.
  intros direct first renewal.
  destruct (success_status_is_200 Scenario.api Scenario.renewing PUT "/profile"
              Scenario.profile Scenario.up_to_date) as [Hdirect _].
  destruct (success_status_is_200 Scenario.api Scenario.renewing PUT "/profile"
              Scenario.profile Scenario.signed_in) as [_ Hretry].
  destruct (Hdirect 201 Scenario.profile eq_refl) as (w1 & Hrun1 & Htrace1).
  destruct (Hretry Scenario.expired 201 Scenario.profile eq_refl eq_refl)
    as (w2 & Hrun2 & Htrace2).
  split; [reflexivity |]. split.
  - rewrite Hrun1. cbn [fst]. rewrite Htrace1. reflexivity.
  - split; [reflexivity |]. split; [reflexivity |].
    rewrite Hrun2. cbn [fst]. rewrite Htrace2. reflexivity.
Defined.

(** * Further properties of the service *)

Section Cases.

Variable apiUrl : string.
Variable srv : Backend.

(** The three worlds the refresh routine can leave. *)
Lemma refreshing_cases w :
  let renewal := refresh_request apiUrl (jar w) in
  (exists st fresh,
     oauth_reply srv (trace w) renewal = Replied st fresh /\
     refreshing apiUrl srv w =
       (with_jar (renew_session fresh (plus_days (clock w) 30)) (emit (Sent renewal) w),
        Next JsUndefined)) \/
  (exists payload,
     oauth_reply srv (trace w) renewal = Failed 401 payload /\
     refreshing apiUrl srv w =
       (emit (Navigated ["/401"])
          (emit (Reloaded (clear_session (jar w)))
             (with_jar clear_session (emit (Sent renewal) w))),
        Next JsNull)) \/
  (exists status payload,
     status <> 401 /\
     oauth_reply srv (trace w) renewal = Failed status payload /\
     refreshing apiUrl srv w =
       (emit (Navigated ["/400"]) (emit (Sent renewal) w), Next JsNull)).
Proof.
  intros renewal.
  destruct (oauth_reply srv (trace w) renewal) as [st fresh | status payload] eqn:Hreply.
  - left. exists st, fresh. split; [reflexivity |].
    apply (refreshing_replied _ _ _ _ _ Hreply).
  - destruct (Z.eq_dec status 401) as [-> | Hother].
    + right; left. exists payload. split; [reflexivity |].
      apply (refreshing_rejected _ _ _ _ Hreply).
    + right; right. exists status, payload. split; [exact Hother |].
      split; [reflexivity |]. apply (refreshing_failed _ _ _ _ _ Hother Hreply).
Qed.

(** The routine calls no closure and sends its one request. *)
Lemma refreshing_footprint w :
  let w2 := fst (refreshing apiUrl srv w) in
  calls_of (trace w2) = calls_of (trace w) /\
  requests_of (trace w2) = requests_of (trace w) ++ [refresh_request apiUrl (jar w)] /\
  (jar w2 = jar w \/
   (exists fresh, jar w2 = renew_session fresh (plus_days (clock w) 30) (jar w)) \/
   jar w2 = clear_session (jar w)).
Proof.
  destruct (refreshing_cases w)
    as [(st & fresh & _ & ->) | [(payload & _ & ->) | (status & payload & _ & _ & ->)]];
    cbn [fst trace jar emit with_jar];
    rewrite !calls_of_app, !requests_of_app; cbn [calls_of requests_of];
    rewrite ?app_nil_r; (split; [reflexivity |]); (split; [reflexivity |]).
  - right; left. exists fresh. reflexivity.
  - right; right. reflexivity.
  - left. reflexivity.
Qed.

(** The four ways a verb operation with the recording closure can go. *)
Lemma invoke_cases m uri payload w :
  let first := verb_request apiUrl m uri payload (stored (jar w) "access_token") in
  let w1 := emit (Sent first) w in
  let w2 := fst (refreshing apiUrl srv w1) in
  let second := verb_request apiUrl m uri payload (stored (jar w2) "access_token") in
  (exists status data,
     invoke apiUrl srv m uri payload probe w = (emit (Called status data (jar w)) w1, Normal tt))
  \/
  (exists thrown,
     invoke apiUrl srv m uri payload probe w = (emit (Unhandled thrown) w1, Normal tt))
  \/
  (exists status data,
     invoke apiUrl srv m uri payload probe w =
       (emit (Called status data (jar w2)) (emit (Sent second) w2), Normal tt)).
Proof.
  intros first w1 w2 second.
  destruct (json_reply srv (trace w) first) as [st content | status error] eqn:Hfirst.
  - left. exists (JsNumber 200), content. apply (invoke_replied _ _ _ _ _ _ _ _ Hfirst).
  - destruct (Z.eq_dec status 401) as [-> | Hother].
    + right; right.
      pose proof (invoke_unauthorized apiUrl srv m uri payload w error Hfirst) as Hrun.
      cbv zeta in Hrun. fold first w1 w2 second in Hrun.
      destruct (json_reply srv (trace w2) second) as [st content | status error2];
        cbn [retry_call] in Hrun; eexists _, _; exact Hrun.
    + destruct (message_of error) as [message | thrown] eqn:Hmessage.
      * left. exists (JsNumber status), message.
        apply (invoke_failed _ _ _ _ _ _ _ _ _ Hother Hfirst Hmessage).
      * right; left. exists thrown.
        apply (invoke_failed_unreadable _ _ _ _ _ _ _ _ _ Hother Hfirst Hmessage).
Qed.

End Cases.

(** X1. Whatever the refresh endpoint answers, the observable of
    [RefreshToken] emits and never errors; the routine sends exactly one
    request, built from the [logged_user] and [refresh_token] cookies, and
    calls no closure. *)
Theorem refresh_always_emits (apiUrl : string) (srv : Backend) (w : World) :
  exists w' v,
    refreshing apiUrl srv w = (w', Next v) /\
    requests_of (trace w') = requests_of (trace w) ++ [refresh_request apiUrl (jar w)] /\
    calls_of (trace w') = calls_of (trace w).
Proof.
  destruct (refreshing_emits apiUrl srv w) as (w' & v & Hrun).
  exists w', v. split; [exact Hrun |].
  destruct (refreshing_footprint apiUrl srv w) as (Hcalls & Hrequests & _).
  rewrite Hrun in Hcalls, Hrequests. cbn [fst] in Hcalls, Hrequests.
  split; assumption.
Qed.

(** X2. A verb operation sends its request once, or three requests: its
    request, one refresh request, and its request again with the access
    token the cookie holds at the end.  There is no path with a second
    refresh or a third attempt. *)
Theorem verb_sends_one_or_three
    (apiUrl : string) (srv : Backend) (m : Method) (uri : string) (payload : JsValue)
    (w : World) :
  let first := verb_request apiUrl m uri payload (stored (jar w) "access_token") in
  let w' := fst (invoke apiUrl srv m uri payload probe w) in
  let second := verb_request apiUrl m uri payload (stored (jar w') "access_token") in
  requests_of (trace w') = requests_of (trace w) ++ [first] \/
  requests_of (trace w') =
    requests_of (trace w) ++ [first; refresh_request apiUrl (jar w); second].
Proof.
  intros first w' second. subst w' second.
  destruct (invoke_cases apiUrl srv m uri payload w)
    as [(status & data & ->) | [(thrown & ->) | (status & data & ->)]];
    cbn [fst trace jar emit].
  - left. rewrite !requests_of_app. cbn [requests_of]. by rewrite app_nil_r.
  - left. rewrite !requests_of_app. cbn [requests_of]. by rewrite app_nil_r.
  - right. fold first.
    destruct (refreshing_footprint apiUrl srv (emit (Sent first) w)) as (_ & Hrequests & _).
    rewrite !requests_of_app, Hrequests. cbn [trace jar emit requests_of].
    rewrite !requests_of_app. cbn [requests_of].
    rewrite app_nil_r, <- !app_assoc. reflexivity.
Qed.

(** X3. After a verb operation the cookie jar is the one before the call, or
    that jar with both token cookies renewed for 30 days, or that jar without
    the five session cookies.  So a jar in which the two token cookies are
    both present or both absent stays such a jar. *)
Theorem verb_keeps_tokens_paired
    (apiUrl : string) (srv : Backend) (m : Method) (uri : string) (payload : JsValue)
    (w : World) :
  let after := jar (fst (invoke apiUrl srv m uri payload probe w)) in
  (after = jar w \/
   (exists fresh, after = renew_session fresh (plus_days (clock w) 30) (jar w)) \/
   after = clear_session (jar w)) /\
  (paired (jar w) -> paired after).
Proof.
  intros after.
  assert (Hcases : after = jar w \/
            (exists fresh, after = renew_session fresh (plus_days (clock w) 30) (jar w)) \/
            after = clear_session (jar w)).
  { subst after.
    destruct (invoke_cases apiUrl srv m uri payload w)
      as [(status & data & ->) | [(thrown & ->) | (status & data & ->)]];
      cbn [fst trace jar emit]; [left; reflexivity | left; reflexivity |].
    destruct (refreshing_footprint apiUrl srv
                (emit (Sent (verb_request apiUrl m uri payload
                               (stored (jar w) "access_token"))) w))
      as (_ & _ & Hjar).
    exact Hjar. }
  split; [exact Hcases |].
  intros Hpaired.
  destruct Hcases as [-> | [(fresh & ->) | ->]]; [exact Hpaired | |]; unfold paired.
  - unfold renew_session.
    rewrite lookup_insert_eq, lookup_insert_ne, lookup_insert_eq by discriminate.
    split; discriminate.
  - rewrite !lookup_clear_session.
    rewrite !bool_decide_eq_true_2 by (unfold session_keys; set_solver).
    split; reflexivity.
Qed.

Lemma verb_keeps_tokens_paired_witness :
  paired (jar Scenario.signed_out) /\
  paired (jar (fst (invoke Scenario.api Scenario.renewing GET "/profile" JsNull probe
                      Scenario.signed_out))) /\
  jar (fst (invoke Scenario.api Scenario.renewing GET "/profile" JsNull probe
              Scenario.signed_out)) !! "access_token"
    = Some {| value := "A2"; expires := {| day_number := 20033; time_of_day := 1000 |};
              path := "/" |}.
Proof.
  assert (Hpaired : paired (jar Scenario.signed_out)) by (split; reflexivity).
  split; [exact Hpaired |]. split.
  - apply (verb_keeps_tokens_paired Scenario.api Scenario.renewing GET "/profile" JsNull
             Scenario.signed_out).
    exact Hpaired.
  - reflexivity.
Defined.

Lemma closure_called_once_when_readable_witness :
  (forall status error,
     json_reply Scenario.absent (trace Scenario.signed_in)
       (verb_request Scenario.api POST "/missing" Scenario.profile
          (stored (jar Scenario.signed_in) "access_token")) = Failed status error ->
     status <> 401 -> truthy error = true) /\
  length (calls_of (trace (fst (invoke Scenario.api Scenario.absent POST "/missing"
                                  Scenario.profile probe Scenario.signed_in)))) = 1%nat.
Proof.
  assert (Hreadable : forall status error,
     json_reply Scenario.absent (trace Scenario.signed_in)
       (verb_request Scenario.api POST "/missing" Scenario.profile
          (stored (jar Scenario.signed_in) "access_token")) = Failed status error ->
     status <> 401 -> truthy error = true).
  { intros status error [= <- <-] _. reflexivity. }
  split; [exact Hreadable |].
  apply (closure_called_once_when_readable Scenario.api Scenario.absent POST "/missing"
           Scenario.profile Scenario.signed_in Hreadable).
Defined.

Lemma retry_follows_failed_refresh_witness :
  let first := verb_request Scenario.api PUT "/profile" Scenario.profile "A1" in
  let renewal := refresh_request Scenario.api Scenario.session in
  json_reply Scenario.refusing [] first = Failed 401 Scenario.expired /\
  400 <> 401 /\
  oauth_reply Scenario.refusing [Sent first] renewal = Failed 400 Scenario.malformed /\
  trace (fst (invoke Scenario.api Scenario.refusing PUT "/profile" Scenario.profile probe
                Scenario.signed_in)) =
    [Sent first; Sent renewal; Navigated ["/400"]; Sent first;
     Called (JsNumber 401) Scenario.expired Scenario.session].
Proof.
  intros first renewal.
  split; [reflexivity |]. split; [lia |]. split; [reflexivity |].
  rewrite (retry_follows_failed_refresh Scenario.api Scenario.refusing PUT "/profile"
             Scenario.profile Scenario.signed_in Scenario.expired 400 Scenario.malformed
             eq_refl ltac:(lia) eq_refl).
  reflexivity.
Defined.

Lemma retry_follows_rejected_refresh_witness :
  let first := verb_request Scenario.api PUT "/profile" Scenario.profile "A1" in
  let renewal := refresh_request Scenario.api Scenario.session in
  let second := verb_request Scenario.api PUT "/profile" Scenario.profile "" in
  json_reply Scenario.rejecting [] first = Failed 401 Scenario.expired /\
  oauth_reply Scenario.rejecting [Sent first] renewal = Failed 401 Scenario.revoked /\
  requests_of
    (trace (fst (invoke Scenario.api Scenario.rejecting PUT "/profile" Scenario.profile
                   probe Scenario.signed_in))) = [first; renewal; second].
Proof.
  intros first renewal second.
  split; [reflexivity |]. split; [reflexivity |].
  rewrite (retry_follows_rejected_refresh Scenario.api Scenario.rejecting PUT "/profile"
             Scenario.profile Scenario.signed_in Scenario.expired Scenario.revoked
             eq_refl eq_refl).
  reflexivity.
Defined.

(** X7. The result of a verb operation is the caller's closure run once: when
    the first request succeeds and the closure returns normally from the
    call with 200 and the body, made in the world right after the request,
    the world the closure leaves is the world the operation leaves. *)
Theorem any_closure_runs_once_on_success
    (apiUrl : string) (srv : Backend) (m : Method) (uri : string) (payload : JsValue)
    (closure : Handler) (w w' : World) (st : Z) (content : JsValue) :
  let first := verb_request apiUrl m uri payload (stored (jar w) "access_token") in
  json_reply srv (trace w) first = Replied st content ->
  closure (JsNumber 200) content (emit (Sent first) w) = (w', Normal tt) ->
  invoke apiUrl srv m uri payload closure w = (w', Normal tt).
Proof.
  destruct w as [cookies today urls history].
  intros first Hreply Hclosure. subst first.
  destruct m;
    cbv [verb_request emit trace jar clock object_urls] in Hreply, Hclosure;
    cbv [invoke GetRequest PostRequest PutRequest DeleteRequest ReturnHttpHeaders
         http_get http_post http_put http_delete http_call
         subscribe map catchError run bind ret cookie_get emit
         opt_headers opt_responseType trace jar clock object_urls];
    rewrite Hreply, Hclosure; reflexivity.
Qed.

Lemma any_closure_runs_once_on_success_witness :
  let first := verb_request Scenario.api DELETE "/profile" JsNull "A2" in
  let closure : Handler := fun status data => router_navigate ["/done"] in
  json_reply Scenario.renewing [] first = Replied 201 Scenario.profile /\
  closure (JsNumber 200) Scenario.profile (emit (Sent first) Scenario.up_to_date)
    = (emit (Navigated ["/done"]) (emit (Sent first) Scenario.up_to_date), Normal tt) /\
  invoke Scenario.api Scenario.renewing DELETE "/profile" JsNull closure Scenario.up_to_date
    = (emit (Navigated ["/done"]) (emit (Sent first) Scenario.up_to_date), Normal tt).
Proof.
  intros first closure.
  split; [reflexivity |]. split; [reflexivity |].
  apply (any_closure_runs_once_on_success Scenario.api Scenario.renewing DELETE "/profile"
           JsNull closure Scenario.up_to_date _ 201 Scenario.profile);
    reflexivity.
Defined.

(** X8. The second attempt's branch hands every error to the closure, the
    closure's own included.  When the first request fails with 401, the
    second attempt succeeds and the closure throws on the call with 200 and
    the body, the closure is called a second time, in the world its first
    call left, with the [status] and the [error] of what it threw (both
    [undefined] for an ordinary exception); the operation ends as that second
    call ends, and an exception of the second call is left unhandled. *)
Theorem failing_closure_is_called_again
    (apiUrl : string) (srv : Backend) (m : Method) (uri : string) (payload : JsValue)
    (closure : Handler) (w w3 : World) (error : JsValue) (st : Z) (content : JsValue)
    (thrown : Thrown) :
  let first := verb_request apiUrl m uri payload (stored (jar w) "access_token") in
  let w2 := fst (refreshing apiUrl srv (emit (Sent first) w)) in
  let second := verb_request apiUrl m uri payload (stored (jar w2) "access_token") in
  json_reply srv (trace w) first = Failed 401 error ->
  json_reply srv (trace w2) second = Replied st content ->
  closure (JsNumber 200) content (emit (Sent second) w2) = (w3, Throw thrown) ->
  invoke apiUrl srv m uri payload closure w =
    match closure (status_of thrown) (error_of thrown) w3 with
    | (w4, Normal _) => (w4, Normal tt)
    | (w4, Throw again) => (emit (Unhandled again) w4, Normal tt)
    end.
Proof.
  intros first w2 second Hfirst Hsecond Hclosure.
  destruct (refreshing_emits apiUrl srv (emit (Sent first) w)) as (w5 & v & Hrun).
  assert (Hw2 : w2 = w5) by (subst w2; rewrite Hrun; reflexivity).
  rewrite <- Hw2 in Hrun. clear Hw2. clearbody w2.
  subst first second.
  revert Hrun Hsecond Hclosure Hfirst.
  destruct w as [cookies today urls history], w2 as [cookies2 today2 urls2 history2].
  unfold refreshing.
  destruct m;
    cbv [verb_request emit trace jar clock object_urls];
    cbv [invoke GetRequest PostRequest PutRequest DeleteRequest ReturnHttpHeaders
         http_get http_post http_put http_delete http_call
         subscribe map catchError switchMap of_value run bind ret cookie_get
         emit opt_headers opt_responseType
         trace jar clock object_urls fst];
    intros Hrun Hsecond Hclosure Hfirst; rewrite Hfirst;
    cbn [status_of loose_eq_number Z.eqb Pos.eqb];
    (destruct (RefreshToken apiUrl srv _) as [w1 [refreshed | e]];
     [| discriminate Hrun]);
    cbv [run] in Hrun; destruct refreshed as [body]; rewrite Hrun;
    cbv [trace jar clock object_urls]; rewrite Hsecond, Hclosure;
    (destruct (closure (status_of thrown) (error_of thrown) w3) as [w4 [[] | again]]);
    reflexivity.
Qed.

Lemma failing_closure_is_called_again_witness :
  let first := verb_request Scenario.api GET "/profile" JsNull "A1" in
  let renewal := refresh_request Scenario.api Scenario.session in
  let second := verb_request Scenario.api GET "/profile" JsNull "A2" in
  let inner := JsObject [("message", JsString "inner")] in
  json_reply Scenario.renewing [] first = Failed 401 Scenario.expired /\
  json_reply Scenario.renewing [Sent first; Sent renewal] second
    = Replied 201 Scenario.profile /\
  calls_of (trace (fst (invoke Scenario.api Scenario.renewing GET "/profile" JsNull fragile
                          Scenario.signed_in))) =
    [(JsNumber 200, Scenario.profile); (JsUndefined, JsUndefined)] /\
  calls_of (trace (fst (invoke Scenario.api Scenario.renewing GET "/profile" JsNull
                          objecting Scenario.signed_in))) =
    [(JsNumber 200, Scenario.profile); (JsNumber 500, inner)].
Proof.
  intros first renewal second inner.
  split; [reflexivity |]. split; [reflexivity |]. split.
  - rewrite (failing_closure_is_called_again Scenario.api Scenario.renewing GET "/profile"
               JsNull fragile Scenario.signed_in _ Scenario.expired 201 Scenario.profile
               (TypeError "closure failed") eq_refl eq_refl eq_refl).
    reflexivity.
  - rewrite (failing_closure_is_called_again Scenario.api Scenario.renewing GET "/profile"
               JsNull objecting Scenario.signed_in _ Scenario.expired 201 Scenario.profile
               (HttpErrorResponse 500 inner) eq_refl eq_refl eq_refl).
    reflexivity.
Defined.

(** X9. A verb operation does not look whether there is an access token: with
    no [access_token] cookie it still sends its request, with the header
    [Authorization: Bearer ] and nothing after the space, before anything
    else it does. *)
Theorem verb_without_token_sends_empty_bearer
    (apiUrl : string) (srv : Backend) (m : Method) (uri : string) (payload : JsValue)
    (w : World) :
  jar w !! "access_token" = None ->
  exists rest,
    trace (fst (invoke apiUrl srv m uri payload probe w)) =
      trace w ++
        Sent {| method := m;
                url := apiUrl +:+ uri;
                body := match m with GET | DELETE => None | POST | PUT => Some payload end;
                headers := [("Authorization", "Bearer ")];
                responseType := Json |} :: rest.
Proof.
  intros Hmissing.
  assert (Htoken : stored (jar w) "access_token" = "")
    by (unfold stored; rewrite Hmissing; reflexivity).
  pose proof (invoke_cases apiUrl srv m uri payload w) as Hcases.
  cbv zeta in Hcases. rewrite Htoken in Hcases.
  change (verb_request apiUrl m uri payload "") with
    {| method := m;
       url := apiUrl +:+ uri;
       body := match m with GET | DELETE => None | POST | PUT => Some payload end;
       headers := [("Authorization", "Bearer ")];
       responseType := Json |} in Hcases.
  set (first := {| method := m; url := apiUrl +:+ uri; body := _; headers := _;
                   responseType := Json |}) in *.
  destruct Hcases as [(status & data & ->) | [(thrown & ->) | (status & data & ->)]];
    cbn [fst trace emit].
  - eexists. rewrite <- app_assoc. reflexivity.
  - eexists. rewrite <- app_assoc. reflexivity.
  - destruct (refreshing_cases apiUrl srv (emit (Sent first) w))
      as [(st & fresh & _ & ->) | [(refused & _ & ->) | (s & refused & _ & _ & ->)]];
      cbn [fst trace jar emit with_jar];
      eexists; rewrite <- !app_assoc; reflexivity.
Qed.

Lemma verb_without_token_sends_empty_bearer_witness :
  jar Scenario.signed_out !! "access_token" = None /\
  exists rest,
    trace (fst (invoke Scenario.api Scenario.rejecting POST "/profile" Scenario.profile
                  probe Scenario.signed_out)) =
      Sent {| method := POST;
              url := Scenario.api +:+ "/profile";
              body := Some Scenario.profile;
              headers := [("Authorization", "Bearer ")];
              responseType := Json |} :: rest.
Proof.
  split; [reflexivity |].
  apply (verb_without_token_sends_empty_bearer Scenario.api Scenario.rejecting POST
           "/profile" Scenario.profile Scenario.signed_out).
  reflexivity.
Defined.

(** X10. [logoutUser] deletes the five session cookies and no other: every
    cookie with another name is kept as it was; and a second logout leaves
    the jar of the first. *)
Theorem logout_keeps_other_cookies (w : World) :
  (forall k, k ∉ session_keys -> jar (fst (logoutUser w)) !! k = jar w !! k) /\
  jar (fst (logoutUser (fst (logoutUser w)))) = jar (fst (logoutUser w)).
Proof.
  rewrite !logoutUser_run. cbn [fst jar emit with_jar]. split.
  - intros k Hk. rewrite lookup_clear_session.
    by rewrite bool_decide_eq_false_2.
  - apply map_eq. intros k. rewrite !lookup_clear_session.
    destruct (bool_decide (k ∈ session_keys)); reflexivity.
Qed.

Lemma logout_keeps_other_cookies_witness :
  ("theme" ∉ session_keys) /\
  stored (jar Scenario.themed) "theme" = "dark" /\
  stored (jar (fst (logoutUser Scenario.themed))) "theme" = "dark" /\
  stored (jar (fst (logoutUser Scenario.themed))) "role" = "".
Proof.
  assert (Hother : "theme" ∉ session_keys).
  { unfold session_keys. rewrite !not_elem_of_cons. repeat split; try discriminate.
    apply not_elem_of_nil. }
  split; [exact Hother |]. split; [reflexivity |]. split.
  - unfold stored.
    rewrite (proj1 (logout_keeps_other_cookies Scenario.themed) "theme" Hother).
    reflexivity.
  - reflexivity.
Defined.

(** X11. [authenticateUser] sends nothing by itself: it returns the
    observable of the login request.  Subscribed in any world, that
    observable sends one POST to [/auth/login] carrying the user name and
    the password and no [Authorization] header, hands the answer to its
    subscriber as it came, and leaves every cookie as it was: the tokens of a
    successful login are not stored. *)
Theorem authenticate_stores_nothing
    (apiUrl : string) (srv : Backend) (username password : string) :
  let request :=
    {| method := POST;
       url := apiUrl +:+ "/auth/login";
       body := Some (JsObject [("Username", JsString username);
                               ("Password", JsString password)]);
       headers := [];
       responseType := Json |} in
  exists login,
    (forall w, authenticateUser apiUrl srv username password w = (w, Normal login)) /\
    (forall w,
       jar (fst (run login w)) = jar w /\
       trace (fst (run login w)) = trace w ++ [Sent request] /\
       snd (run login w) =
         match oauth_reply srv (trace w) request with
         | Replied _ tokens => Next tokens
         | Failed status error => Error (HttpErrorResponse status error)
         end).
Proof.
  intros request. eexists. split; [intros w; reflexivity |].
  intros w. cbv [http_post_oauth http_call run]. fold request.
  destruct (oauth_reply srv (trace w) request); repeat split; reflexivity.
Qed.

(** X12. [autoLogin] sends the router to [/public/service-request] when the
    [is_loggedin] cookie reads [yes], whatever the other cookies are, and
    does nothing otherwise; it never changes a cookie.  Right after
    [logoutUser] it does nothing, whatever the session was. *)
Theorem autoLogin_follows_the_flag (w : World) :
  (stored (jar w) "is_loggedin" = "yes" ->
     autoLogin w = (emit (Navigated ["/public/service-request"]) w, Normal tt)) /\
  (stored (jar w) "is_loggedin" <> "yes" -> autoLogin w = (w, Normal tt)) /\
  jar (fst (autoLogin w)) = jar w /\
  autoLogin (fst (logoutUser w)) = (fst (logoutUser w), Normal tt).
Proof.
  assert (Hyes : stored (jar w) "is_loggedin" = "yes" ->
            autoLogin w = (emit (Navigated ["/public/service-request"]) w, Normal tt)).
  { intros Hflag. cbv [autoLogin bind cookie_get]. rewrite Hflag. reflexivity. }
  assert (Hno : forall w0, stored (jar w0) "is_loggedin" <> "yes" ->
            autoLogin w0 = (w0, Normal tt)).
  { intros w0 Hflag. cbv [autoLogin bind cookie_get].
    destruct (String.eqb_spec (stored (jar w0) "is_loggedin") "yes") as [Heq | _];
      [contradiction | reflexivity]. }
  split; [exact Hyes |]. split; [apply Hno |]. split.
  - destruct (String.eqb_spec (stored (jar w) "is_loggedin") "yes") as [Heq | Hne].
    + rewrite (Hyes Heq). reflexivity.
    + rewrite (Hno w Hne). reflexivity.
  - apply Hno. rewrite logoutUser_run. cbn [fst jar emit with_jar].
    rewrite stored_clear_session by (unfold session_keys; set_solver).
    discriminate.
Qed.

Lemma autoLogin_follows_the_flag_witness :
  stored (jar Scenario.signed_in) "is_loggedin" = "yes" /\
  trace (fst (autoLogin Scenario.signed_in)) = [Navigated ["/public/service-request"]] /\
  stored (jar Scenario.signed_out) "is_loggedin" <> "yes" /\
  trace (fst (autoLogin Scenario.signed_out)) = [].
Proof.
  destruct (autoLogin_follows_the_flag Scenario.signed_in) as (Hyes & _).
  destruct (autoLogin_follows_the_flag Scenario.signed_out) as (_ & Hno & _).
  assert (Hout : stored (jar Scenario.signed_out) "is_loggedin" <> "yes") by discriminate.
  split; [reflexivity |]. split.
  - rewrite (Hyes eq_refl). reflexivity.
  - split; [exact Hout |]. rewrite (Hno Hout). reflexivity.
Defined.

(** * Properties of the helpers of [globals.config.ts] *)

Section Blank.

Import Globals.

Lemma forallb_rev {A} (f : A -> bool) (l : list A) : forallb f (rev l) = forallb f l.
Proof.
  induction l as [| x l IH]; [reflexivity |].
  cbn [rev forallb]. rewrite forallb_app, IH. cbn [forallb].
  rewrite andb_true_r. apply andb_comm.
Qed.

Lemma trimStart_white s : forallb is_white_space (trimStart s) = forallb is_white_space s.
Proof.
  induction s as [| c s IH]; [reflexivity |].
  cbn [trimStart]. destruct (is_white_space c) eqn:Hc; [| reflexivity].
  cbn [forallb]. rewrite Hc. exact IH.
Qed.

Lemma trimStart_empty s :
  Nat.eqb (length (trimStart s)) 0 = forallb is_white_space s.
Proof.
  induction s as [| c s IH]; [reflexivity |].
  cbn [trimStart forallb]. destruct (is_white_space c); [exact IH | reflexivity].
Qed.

Lemma trim_empty s : Nat.eqb (length (trim s)) 0 = forallb is_white_space s.
Proof.
  unfold trim, trimEnd. rewrite length_rev, trimStart_empty, forallb_rev.
  apply trimStart_white.
Qed.

(** X13. [isNullOrWhiteSpace] answers [true] for [null], for [undefined], and
    for exactly the strings all of whose code units are white space or line
    terminators (the empty string among them); so a string made of two parts
    is blank when both parts are. *)
Theorem isNullOrWhiteSpace_characterised (input : Input) :
  isNullOrWhiteSpace input =
    match input with
    | Null | Undefined => true
    | Str s => forallb is_white_space s
    end /\
  forall s t,
    isNullOrWhiteSpace (Str (s ++ t)) =
      isNullOrWhiteSpace (Str s) && isNullOrWhiteSpace (Str t).
Proof.
  assert (Hstr : forall s, isNullOrWhiteSpace (Str s) = forallb is_white_space s).
  { intros [| c s]; [reflexivity |].
    unfold isNullOrWhiteSpace. cbn [falsy]. apply trim_empty. }
  split.
  - destruct input as [| | s]; [reflexivity | reflexivity | apply Hstr].
  - intros s t. rewrite !Hstr. apply forallb_app.
Qed.

End Blank.

Section IsoText.

Import Globals.

Lemma string_app_assoc (a b c : string) : (a +:+ b) +:+ c = a +:+ b +:+ c.
Proof.
  induction a as [| x a IH]; [reflexivity |].
  change (String x ((a +:+ b) +:+ c) = String x (a +:+ b +:+ c)).
  by rewrite IH.
Qed.

Lemma replace_space_first (replacement day rest : string) :
  ~ In space (list_ascii_of_string day) ->
  replace_space replacement (day +:+ String space rest) = day +:+ replacement +:+ rest.
Proof.
  induction day as [| c day IH]; intros Hfree.
  - change (replace_space replacement (String space rest) = replacement +:+ rest).
    cbn [replace_space]. rewrite Ascii.eqb_refl. reflexivity.
  - change (replace_space replacement (String c (day +:+ String space rest))
            = String c (day +:+ replacement +:+ rest)).
    cbn [replace_space list_ascii_of_string] in *.
    destruct (Ascii.eqb_spec c space) as [-> | _].
    + exfalso. apply Hfree. left. reflexivity.
    + f_equal. apply IH. intros Hin. apply Hfree. right. exact Hin.
Qed.

Lemma replace_space_none (replacement text : string) :
  ~ In space (list_ascii_of_string text) -> replace_space replacement text = text.
Proof.
  induction text as [| c text IH]; intros Hfree; [reflexivity |].
  cbn [replace_space list_ascii_of_string] in *.
  destruct (Ascii.eqb_spec c space) as [-> | _].
  - exfalso. apply Hfree. left. reflexivity.
  - f_equal. apply IH. intros Hin. apply Hfree. right. exact Hin.
Qed.

(** X14. When the platform formats the current time in the asked time zone
    as a day, one space and a time of day, [getCurrentDateTimeInISOFormat]
    returns the day, the letter T, the time of day as formatted for that
    time zone, and the letter Z; only the first space is replaced.  When the
    platform rejects the time zone, nothing is returned. *)
Theorem iso_text_of_formatted_time
    (format_sv_SE : string -> Date -> option string) (timeZone : string) (w : World)
    (day time : string) :
  ~ In space (list_ascii_of_string day) ->
  (format_sv_SE timeZone (clock w) = Some (day +:+ " " +:+ time) ->
     getCurrentDateTimeInISOFormat format_sv_SE timeZone w
       = Some (day +:+ "T" +:+ time +:+ "Z")) /\
  (format_sv_SE timeZone (clock w) = None ->
     getCurrentDateTimeInISOFormat format_sv_SE timeZone w = None).
Proof.
  intros Hfree. unfold getCurrentDateTimeInISOFormat. split; intros ->; [| reflexivity].
  change (day +:+ " " +:+ time) with (day +:+ String space time).
  rewrite (replace_space_first "T" day time Hfree).
  f_equal. rewrite string_app_assoc. reflexivity.
Qed.

Lemma iso_text_of_formatted_time_witness :
  ~ In space (list_ascii_of_string "2024-01-15") /\
  clock_text "Asia/Manila" (clock Scenario.signed_in) = Some "2024-01-15 21:45:30" /\
  getCurrentDateTimeInISOFormat clock_text "Asia/Manila" Scenario.signed_in
    = Some "2024-01-15T21:45:30Z" /\
  clock_text "Mars/Olympus" (clock Scenario.signed_in) = None /\
  getCurrentDateTimeInISOFormat clock_text "Mars/Olympus" Scenario.signed_in = None.
Proof.
  assert (Hfree : ~ In space (list_ascii_of_string "2024-01-15")).
  { intros Hin. vm_compute in Hin.
    repeat (destruct Hin as [Hin | Hin]; [discriminate Hin |]).
    exact Hin. }
  split; [exact Hfree |]. split; [reflexivity |]. split.
  - apply (proj1 (iso_text_of_formatted_time clock_text "Asia/Manila" Scenario.signed_in
                    "2024-01-15" "21:45:30" Hfree)).
    reflexivity.
  - split; [reflexivity |].
    apply (proj2 (iso_text_of_formatted_time clock_text "Mars/Olympus" Scenario.signed_in
                    "2024-01-15" "21:45:30" Hfree)).
    reflexivity.
Defined.

End IsoText.

Section Forms.

Import Globals.

Lemma framed_skip : framed skip.
Proof. intros fd. cbv [skip entries ending fst snd]. by rewrite app_nil_r. Qed.

Lemma framed_throw thrown : framed (throw thrown).
Proof. intros fd. cbv [throw entries ending fst snd]. by rewrite app_nil_r. Qed.

Lemma framed_append name v : framed (append name v).
Proof. intros fd. reflexivity. Qed.

Lemma and_then_run (a b : Step) fd :
  framed a -> framed b ->
  and_then a b fd =
    match ending a with
    | Returned => (fd ++ entries a ++ entries b, ending b)
    | thrown => (fd ++ entries a, thrown)
    end.
Proof.
  intros Ha Hb. unfold and_then. rewrite (Ha fd).
  destruct (ending a); [| reflexivity | reflexivity].
  rewrite (Hb (fd ++ entries a)), <- app_assoc. reflexivity.
Qed.

Lemma framed_and_then (a b : Step) : framed a -> framed b -> framed (and_then a b).
Proof.
  intros Ha Hb fd. unfold entries, ending.
  rewrite !(and_then_run a b) by assumption.
  destruct (ending a); reflexivity.
Qed.

Lemma framed_each_property {A} (body : string -> A -> Step) (props : list (string * A)) :
  (forall key v, In (key, v) props -> framed (body key v)) ->
  framed (each_property body props).
Proof.
  induction props as [| [key v] props IH]; intros Hbody; [apply framed_skip |].
  cbn [each_property]. apply framed_and_then.
  - apply Hbody. left. reflexivity.
  - apply IH. intros key' v' Hin. apply Hbody. right. exact Hin.
Qed.

Lemma framed_each_index {A} (body : nat -> A -> Step) (i : nat) (items : list A) :
  (forall j x, In x items -> framed (body j x)) ->
  framed (each_index body i items).
Proof.
  revert i. induction items as [| x items IH]; intros i Hbody; [apply framed_skip |].
  cbn [each_index]. apply framed_and_then.
  - apply Hbody. left. reflexivity.
  - apply IH. intros j y Hin. apply Hbody. right. exact Hin.
Qed.

Lemma appendObject_unfold (obj : Data) (parentKey : string) :
  appendObjectToFormData obj parentKey =
    match obj with
    | DObject props =>
        if shadows_hasOwnProperty props
        then throw TypeError
        else each_property (loop_body appendObjectToFormData parentKey) props
    | DArray items =>
        each_index (fun index element =>
          loop_body appendObjectToFormData parentKey (pretty index) element) 0 items
    | DString s =>
        each_index (fun index c =>
          append (property_name parentKey (pretty index)) (Text (String c EmptyString)))
          0 (list_ascii_of_string s)
    | _ => skip
    end.
Proof. destruct obj; reflexivity. Qed.

Lemma size_item (x : Data) (items : list Data) :
  In x items -> (size x < size (DArray items))%nat.
Proof.
  intros Hin. cbn [size]. induction items as [| y items IH]; [destruct Hin |].
  simpl. destruct Hin as [-> | Hin]; [lia |].
  specialize (IH Hin). lia.
Qed.

Lemma size_property (key : string) (v : Data) (props : list (string * Data)) :
  In (key, v) props -> (size v < size (DObject props))%nat.
Proof.
  intros Hin. cbn [size]. induction props as [| [k y] props IH]; [destruct Hin |].
  simpl. destruct Hin as [[= -> ->] | Hin]; [lia |].
  specialize (IH Hin). lia.
Qed.

Lemma Data_size_ind (R : Data -> Prop) :
  (forall d, (forall d', (size d' < size d)%nat -> R d') -> R d) -> forall d, R d.
Proof.
  intros Hstep d.
  assert (Hall : forall n d', (size d' < n)%nat -> R d').
  { induction n as [| n IH]; intros d' Hlt; [lia |].
    apply Hstep. intros d'' Hlt'. apply IH. lia. }
  apply (Hall (S (size d))). lia.
Qed.

(** The loop body is framed as soon as the recursive calls it can make
    are. *)
Lemma framed_loop_body (recur : Data -> string -> Step) parentKey key (value : Data) :
  (forall d name, (size d <= size value)%nat -> framed (recur d name)) ->
  framed (loop_body recur parentKey key value).
Proof.
  intros Hrecur. unfold loop_body.
  destruct value as [| | b | n | s | [iso |] | f | items | props];
    try apply framed_append; try apply framed_throw.
  - apply framed_each_index. intros j x Hin.
    pose proof (size_item x items Hin) as Hsize.
    destruct x; try apply framed_append; apply Hrecur; lia.
  - apply Hrecur. lia.
Qed.

Lemma framed_appendObject (obj : Data) (parentKey : string) :
  framed (appendObjectToFormData obj parentKey).
Proof.
  revert parentKey. induction obj as [obj IH] using Data_size_ind. intros parentKey.
  rewrite appendObject_unfold.
  destruct obj as [| | b | n | s | iso | f | items | props]; try apply framed_skip.
  - apply framed_each_index. intros j c _. apply framed_append.
  - apply framed_each_index. intros j x Hin.
    apply framed_loop_body. intros d name Hsize. apply IH.
    pose proof (size_item x items Hin). lia.
  - destruct (shadows_hasOwnProperty props); [apply framed_throw |].
    apply framed_each_property. intros key v Hin.
    apply framed_loop_body. intros d name Hsize. apply IH.
    pose proof (size_property key v props Hin). lia.
Qed.

End Forms.

Section FormEntries.

Import Globals.

Lemma entries_and_then (a b : Step) :
  framed a -> framed b ->
  entries (and_then a b) =
    entries a ++ match ending a with Returned => entries b | _ => [] end.
Proof.
  intros Ha Hb. unfold entries at 1. rewrite (and_then_run a b) by assumption.
  destruct (ending a); cbn [fst app]; [reflexivity | by rewrite app_nil_r ..].
Qed.

Lemma Forall_each_property {A} (Q : string * FormValue -> Prop)
    (body : string -> A -> Step) (props : list (string * A)) :
  (forall key v, In (key, v) props -> framed (body key v) /\ Forall Q (entries (body key v))) ->
  Forall Q (entries (each_property body props)).
Proof.
  induction props as [| [key v] props IH]; intros Hbody; [constructor |].
  cbn [each_property].
  assert (Hrest : forall key' v', In (key', v') props ->
            framed (body key' v') /\ Forall Q (entries (body key' v'))).
  { intros key' v' Hin. apply Hbody. right. exact Hin. }
  destruct (Hbody key v (or_introl eq_refl)) as [Hframed Hhead].
  rewrite entries_and_then;
    [| exact Hframed
     | apply framed_each_property; intros key' v' Hin; apply (Hrest key' v' Hin)].
  apply Forall_app. split; [exact Hhead |].
  destruct (ending (body key v)); [apply IH; exact Hrest | constructor ..].
Qed.

Lemma Forall_each_index {A} (Q : string * FormValue -> Prop)
    (body : nat -> A -> Step) (i : nat) (items : list A) :
  (forall j x, In x items -> framed (body j x) /\ Forall Q (entries (body j x))) ->
  Forall Q (entries (each_index body i items)).
Proof.
  revert i. induction items as [| x items IH]; intros i Hbody; [constructor |].
  cbn [each_index].
  assert (Hrest : forall j y, In y items ->
            framed (body j y) /\ Forall Q (entries (body j y))).
  { intros j y Hin. apply Hbody. right. exact Hin. }
  destruct (Hbody i x (or_introl eq_refl)) as [Hframed Hhead].
  rewrite entries_and_then;
    [| exact Hframed
     | apply framed_each_index; intros j y Hin; apply (Hrest j y Hin)].
  apply Forall_app. split; [exact Hhead |].
  destruct (ending (body i x)); [apply IH; exact Hrest | constructor ..].
Qed.

(** ** Names *)

Lemma prefix_iff (a b : string) : String.prefix a b = true <-> exists t, b = a +:+ t.
Proof.
  revert b. induction a as [| x a IH]; intros b.
  - split; [intros _; exists b; reflexivity | intros _; destruct b; reflexivity].
  - destruct b as [| y b].
    + split; [discriminate | intros [t Ht]; discriminate Ht].
    + cbn [String.prefix]. destruct (Ascii.ascii_dec x y) as [-> | Hne].
      * rewrite IH. split; intros [t Ht]; exists t.
        -- change (String y b = String y (a +:+ t)). by rewrite Ht.
        -- change (String y b = String y (a +:+ t)) in Ht. by injection Ht.
      * split; [discriminate |]. intros [t Ht].
        change (String y b = String x (a +:+ t)) in Ht. injection Ht as Hxy _.
        congruence.
Qed.

Lemma prefix_extend (a b c : string) :
  String.prefix a b = true -> String.prefix a (b +:+ c) = true.
Proof.
  rewrite !prefix_iff. intros [t ->]. exists (t +:+ c). apply string_app_assoc.
Qed.

Lemma prefix_below (a b c : string) :
  String.prefix a (b +:+ ".") = true -> String.prefix (b +:+ ".") c = true ->
  String.prefix a c = true.
Proof.
  rewrite !prefix_iff. intros [t Ht] [u ->]. exists (t +:+ u).
  rewrite Ht. apply string_app_assoc.
Qed.

Lemma property_name_prefix (parentKey key : string) :
  parentKey <> "" ->
  String.prefix (parentKey +:+ ".") (property_name parentKey key) = true.
Proof.
  intros Hparent. destruct parentKey as [| c parentKey]; [congruence |].
  unfold property_name. apply prefix_iff. exists key.
  symmetry. apply string_app_assoc.
Qed.

Lemma array_key_nonempty (propName : string) (index : nat) : array_key propName index <> "".
Proof.
  unfold array_key. intros Hempty.
  destruct propName; cbv [String.append] in Hempty; discriminate Hempty.
Qed.

End FormEntries.

Section FormFacts.

Import Globals.

(** X15. [appendObjectToFormData] only appends: for every value and parent
    key there is one list of entries and one ending such that, whatever the
    form data holds at the call, afterwards it holds the same entries in the
    same order followed by that list, and the call ends that way. *)
Theorem form_entries_are_kept (obj : Data) (parentKey : string) :
  exists added outcome,
    forall fd, appendObjectToFormData obj parentKey fd = (fd ++ added, outcome).
Proof.
  exists (entries (appendObjectToFormData obj parentKey)),
         (ending (appendObjectToFormData obj parentKey)).
  apply framed_appendObject.
Qed.

Lemma flat_entries (parentKey : string) (fields : list (string * Data)) (fd : FormData) :
  forallb (fun kv => is_leaf (snd kv)) fields = true ->
  each_property (loop_body appendObjectToFormData parentKey) fields fd =
    (fd ++ List.map (fun kv => (property_name parentKey (fst kv), Text (leaf_text (snd kv))))
             fields,
     Returned).
Proof.
  revert fd. induction fields as [| [key v] fields IH]; intros fd Hleaves.
  - cbn. by rewrite app_nil_r.
  - cbn [forallb snd] in Hleaves. apply andb_prop in Hleaves as [Hleaf Hrest].
    cbn [each_property List.map fst snd]. unfold and_then.
    assert (Hhead : loop_body appendObjectToFormData parentKey key v fd =
              (fd ++ [(property_name parentKey key, Text (leaf_text v))], Returned)).
    { destruct v; try discriminate Hleaf; reflexivity. }
    rewrite Hhead, (IH _ Hrest), <- app_assoc. reflexivity.
Qed.

(** X16. An object that has no property named [hasOwnProperty] and whose
    property values are all [undefined], [null], booleans, numbers or strings
    gives one entry per property, in the order of the properties, named by
    the key (after the parent key and a dot when there is a parent key);
    [undefined] is written as the empty string, [null] as the string [null],
    a number as the string JavaScript makes of it. *)
Theorem flat_object_gives_one_entry_per_property
    (fields : list (string * Data)) (parentKey : string) (fd : FormData) :
  shadows_hasOwnProperty fields = false ->
  forallb (fun kv => is_leaf (snd kv)) fields = true ->
  appendObjectToFormData (DObject fields) parentKey fd =
    (fd ++ List.map (fun kv => (property_name parentKey (fst kv), Text (leaf_text (snd kv))))
             fields,
     Returned).
Proof.
  intros Hfree Hleaves. rewrite appendObject_unfold, Hfree.
  apply flat_entries. exact Hleaves.
Qed.

Lemma flat_object_gives_one_entry_per_property_witness :
  shadows_hasOwnProperty
    [("name", DString "Ana"); ("age", DNumber "30"); ("nick", DUndefined);
     ("manager", DNull); ("active", DBoolean true)] = false /\
  forallb (fun kv => is_leaf (snd kv))
    [("name", DString "Ana"); ("age", DNumber "30"); ("nick", DUndefined);
     ("manager", DNull); ("active", DBoolean true)] = true /\
  appendObjectToFormData profile_form "" [("csrf", Text "t0")] =
    ([("csrf", Text "t0"); ("name", Text "Ana"); ("age", Text "30"); ("nick", Text "");
      ("manager", Text "null"); ("active", Text "true")],
     Returned).
Proof.
  split; [reflexivity |]. split; [reflexivity |].
  apply (flat_object_gives_one_entry_per_property
           [("name", DString "Ana"); ("age", DNumber "30"); ("nick", DUndefined);
            ("manager", DNull); ("active", DBoolean true)] "" [("csrf", Text "t0")]);
    reflexivity.
Defined.

Lemma leaf_items (propName : string) (items : list Data) (i : nat) (fd : FormData) :
  forallb is_leaf items = true ->
  each_index (fun index element =>
      match element with
      | DDate _ | DFile _ | DArray _ | DObject _ =>
          appendObjectToFormData element (array_key propName index)
      | DUndefined => append (array_key propName index) (Text "")
      | DNull | DBoolean _ | DNumber _ | DString _ =>
          append (array_key propName index) (Text (primitive_text element))
      end) i items fd =
    (fd ++ imap (fun j x => (array_key propName (i + j), Text (leaf_text x))) items,
     Returned).
Proof.
  revert i fd. induction items as [| x items IH]; intros i fd Hleaves.
  - cbn. by rewrite app_nil_r.
  - cbn [forallb] in Hleaves. apply andb_prop in Hleaves as [Hleaf Hrest].
    cbn [each_index imap]. unfold and_then.
    rewrite Nat.add_0_r.
    assert (Himap : imap ((fun j x0 => (array_key propName (i + j), Text (leaf_text x0))) ∘ S)
                      items =
                    imap (fun j x0 => (array_key propName (S i + j), Text (leaf_text x0)))
                      items).
    { apply imap_ext. intros j y _. cbn. by rewrite Nat.add_succ_r. }
    rewrite Himap.
    destruct x; try discriminate Hleaf;
      cbv [append]; rewrite (IH _ _ Hrest), <- app_assoc; reflexivity.
Qed.

Lemma single_property_free (key : string) (v : Data) :
  key <> "hasOwnProperty" -> shadows_hasOwnProperty [(key, v)] = false.
Proof.
  intros Hkey. unfold shadows_hasOwnProperty. cbn [existsb fst].
  destruct (String.eqb_spec key "hasOwnProperty") as [Heq | _]; [contradiction | reflexivity].
Qed.

(** X17. An array property, under a key other than [hasOwnProperty], whose
    elements are all [undefined], [null], booleans, numbers or strings gives
    one entry per element, in order, named by the property name followed by
    the index in square brackets. *)
Theorem array_property_gives_indexed_entries
    (key : string) (items : list Data) (parentKey : string) (fd : FormData) :
  key <> "hasOwnProperty" ->
  forallb is_leaf items = true ->
  appendObjectToFormData (DObject [(key, DArray items)]) parentKey fd =
    (fd ++ imap (fun index x =>
                   (property_name parentKey key +:+ "[" +:+ pretty index +:+ "]",
                    Text (leaf_text x))) items,
     Returned).
Proof.
  intros Hkey Hleaves.
  rewrite appendObject_unfold, (single_property_free key _ Hkey).
  cbn [each_property loop_body]. unfold and_then.
  rewrite (leaf_items _ _ 0 fd Hleaves). cbv [skip]. reflexivity.
Qed.

Lemma array_property_gives_indexed_entries_witness :
  "tags" <> "hasOwnProperty" /\
  forallb is_leaf [DString "red"; DNull; DNumber "7"] = true /\
  appendObjectToFormData (DObject [("tags", DArray [DString "red"; DNull; DNumber "7"])])
    "item" [] =
    ([("item.tags[0]", Text "red"); ("item.tags[1]", Text "null");
      ("item.tags[2]", Text "7")],
     Returned).
Proof.
  split; [discriminate |]. split; [reflexivity |].
  apply (array_property_gives_indexed_entries "tags" [DString "red"; DNull; DNumber "7"]
           "item" []); [discriminate | reflexivity].
Defined.

Lemma dropped_items (propName : string) (items : list Data) (i : nat) (fd : FormData) :
  forallb is_date_or_file items = true ->
  each_index (fun index element =>
      match element with
      | DDate _ | DFile _ | DArray _ | DObject _ =>
          appendObjectToFormData element (array_key propName index)
      | DUndefined => append (array_key propName index) (Text "")
      | DNull | DBoolean _ | DNumber _ | DString _ =>
          append (array_key propName index) (Text (primitive_text element))
      end) i items fd = (fd, Returned).
Proof.
  revert i fd. induction items as [| x items IH]; intros i fd Hall; [reflexivity |].
  cbn [forallb] in Hall. apply andb_prop in Hall as [Hx Hrest].
  cbn [each_index]. unfold and_then.
  destruct x; try discriminate Hx; cbn [appendObjectToFormData]; cbv [skip];
    apply (IH _ _ Hrest).
Qed.

(** X18. Dates and files are converted only as direct property values.  As
    elements of an array they are walked as objects without properties of
    their own: an array property, under a key other than [hasOwnProperty],
    whose elements are all dates or files appends nothing, and an invalid
    date among them raises no error. *)
Theorem dates_and_files_in_arrays_are_dropped
    (key : string) (items : list Data) (parentKey : string) (fd : FormData) :
  key <> "hasOwnProperty" ->
  forallb is_date_or_file items = true ->
  appendObjectToFormData (DObject [(key, DArray items)]) parentKey fd = (fd, Returned).
Proof.
  intros Hkey Hall.
  rewrite appendObject_unfold, (single_property_free key _ Hkey).
  cbn [each_property loop_body]. unfold and_then.
  rewrite (dropped_items _ _ 0 fd Hall). reflexivity.
Qed.

Lemma dates_and_files_in_arrays_are_dropped_witness :
  "attachments" <> "hasOwnProperty" /\
  forallb is_date_or_file
    [DDate (Some "2024-01-15T13:45:30.000Z"); DFile avatar; DDate None] = true /\
  appendObjectToFormData
    (DObject [("attachments",
               DArray [DDate (Some "2024-01-15T13:45:30.000Z"); DFile avatar; DDate None])])
    "" [] = ([], Returned) /\
  appendObjectToFormData (DObject [("attachment", DFile avatar)]) "" []
    = ([("attachment", Upload avatar)], Returned).
Proof.
  split; [discriminate |]. split; [reflexivity |]. split; [| reflexivity].
  apply (dates_and_files_in_arrays_are_dropped "attachments"
           [DDate (Some "2024-01-15T13:45:30.000Z"); DFile avatar; DDate None] "" []);
    [discriminate | reflexivity].
Defined.

(** X19. In an object that has no property named [hasOwnProperty], an invalid
    date as a direct property value ends the conversion with a RangeError:
    the properties before it (here values that are not objects) have been
    appended, the properties after it have not. *)
Theorem invalid_date_stops_the_conversion
    (before : list (string * Data)) (key : string) (after : list (string * Data))
    (parentKey : string) (fd : FormData) :
  shadows_hasOwnProperty (before ++ (key, DDate None) :: after) = false ->
  forallb (fun kv => is_leaf (snd kv)) before = true ->
  appendObjectToFormData (DObject (before ++ (key, DDate None) :: after)) parentKey fd =
    (fd ++ List.map (fun kv => (property_name parentKey (fst kv), Text (leaf_text (snd kv))))
             before,
     RangeError).
Proof.
  intros Hfree Hleaves. rewrite appendObject_unfold, Hfree. clear Hfree.
  revert fd. induction before as [| [k v] before IH]; intros fd.
  - cbn. by rewrite app_nil_r.
  - cbn [forallb snd] in Hleaves. apply andb_prop in Hleaves as [Hleaf Hrest].
    cbn [app each_property List.map fst snd]. unfold and_then at 1.
    assert (Hhead : loop_body appendObjectToFormData parentKey k v fd =
              (fd ++ [(property_name parentKey k, Text (leaf_text v))], Returned)).
    { destruct v; try discriminate Hleaf; reflexivity. }
    rewrite Hhead, (IH Hrest), <- app_assoc. reflexivity.
Qed.

Lemma invalid_date_stops_the_conversion_witness :
  shadows_hasOwnProperty
    ([("name", DString "Ana")] ++ ("born", DDate None) :: [("city", DString "Cebu")])
    = false /\
  forallb (fun kv => is_leaf (snd kv)) [("name", DString "Ana")] = true /\
  appendObjectToFormData
    (DObject [("name", DString "Ana"); ("born", DDate None); ("city", DString "Cebu")])
    "" [] = ([("name", Text "Ana")], RangeError).
Proof.
  split; [reflexivity |]. split; [reflexivity |].
  apply (invalid_date_stops_the_conversion [("name", DString "Ana")] "born"
           [("city", DString "Cebu")] "" []); reflexivity.
Defined.

End FormFacts.

Section FormNames.

Import Globals.

Lemma property_name_nonempty (parentKey key : string) :
  parentKey <> "" -> property_name parentKey key <> "".
Proof.
  intros Hparent. destruct parentKey as [| c parentKey]; [congruence |].
  unfold property_name. cbv [String.append]. discriminate.
Qed.

Lemma names_below (outer inner : string) (l : FormData) :
  String.prefix (outer +:+ ".") (inner +:+ ".") = true ->
  Forall (fun e => String.prefix (inner +:+ ".") (fst e) = true) l ->
  Forall (fun e => String.prefix (outer +:+ ".") (fst e) = true) l.
Proof.
  intros Houter Hinner. apply Forall_forall. intros e He.
  apply (prefix_below _ inner); [exact Houter |].
  revert e He. apply Forall_forall. exact Hinner.
Qed.

Lemma loop_body_names (recur : Data -> string -> Step) (parentKey key : string)
    (value : Data) :
  parentKey <> "" ->
  (forall d name, (size d <= size value)%nat -> name <> "" ->
     framed (recur d name) /\
     Forall (fun e => String.prefix (name +:+ ".") (fst e) = true) (entries (recur d name))) ->
  Forall (fun e => String.prefix (parentKey +:+ ".") (fst e) = true)
    (entries (loop_body recur parentKey key value)).
Proof.
  intros Hparent Hrecur.
  pose proof (property_name_prefix parentKey key Hparent) as Hname.
  pose proof (property_name_nonempty parentKey key Hparent) as Hnonempty.
  assert (Hone : forall v,
            Forall (fun e => String.prefix (parentKey +:+ ".") (fst e) = true)
              (entries (append (property_name parentKey key) v))).
  { intros v. repeat constructor. exact Hname. }
  unfold loop_body.
  destruct value as [| | b | n | s | [iso |] | f | items | props];
    try apply Hone; [constructor | |].
  - apply Forall_each_index. intros j x Hin.
    pose proof (size_item x items Hin) as Hsize.
    assert (Hkey : String.prefix (parentKey +:+ ".")
                     (array_key (property_name parentKey key) j) = true)
      by (unfold array_key; apply prefix_extend; exact Hname).
    assert (Hleaf : forall v,
              framed (append (array_key (property_name parentKey key) j) v) /\
              Forall (fun e => String.prefix (parentKey +:+ ".") (fst e) = true)
                (entries (append (array_key (property_name parentKey key) j) v))).
    { intros v. split; [apply framed_append |]. repeat constructor. exact Hkey. }
    assert (Hdeep : framed (recur x (array_key (property_name parentKey key) j)) /\
              Forall (fun e => String.prefix (parentKey +:+ ".") (fst e) = true)
                (entries (recur x (array_key (property_name parentKey key) j)))).
    { destruct (Hrecur x (array_key (property_name parentKey key) j)) as [Hframed Hnames];
        [lia | apply array_key_nonempty |].
      split; [exact Hframed |].
      apply (names_below _ _ _ (prefix_extend _ _ _ Hkey) Hnames). }
    destruct x; try apply Hleaf; exact Hdeep.
  - destruct (Hrecur (DObject props) (property_name parentKey key)) as [_ Hnames];
      [lia | exact Hnonempty |].
    apply (names_below _ _ _ (prefix_extend _ _ _ Hname) Hnames).
Qed.

(** X20. With a parent key that is not empty, every entry
    [appendObjectToFormData] appends is named by the parent key, a dot, and
    more: nothing is written outside the name space of the parent. *)
Theorem appended_names_extend_the_parent_key (obj : Data) (parentKey : string) :
  parentKey <> "" ->
  Forall (fun e => String.prefix (parentKey +:+ ".") (fst e) = true)
    (fst (appendObjectToFormData obj parentKey [])).
Proof.
  revert parentKey. induction obj as [obj IH] using Data_size_ind.
  intros parentKey Hparent. fold (entries (appendObjectToFormData obj parentKey)).
  rewrite appendObject_unfold.
  destruct obj as [| | b | n | s | iso | f | items | props]; try constructor.
  - apply Forall_each_index. intros j c _. split; [apply framed_append |].
    repeat constructor. apply property_name_prefix. exact Hparent.
  - apply Forall_each_index. intros j x Hin. split.
    + apply framed_loop_body. intros d name _. apply framed_appendObject.
    + apply loop_body_names; [exact Hparent |].
      intros d name Hsize Hname. split; [apply framed_appendObject |].
      apply IH; [| exact Hname]. pose proof (size_item x items Hin). lia.
  - destruct (shadows_hasOwnProperty props); [constructor |].
    apply Forall_each_property. intros key v Hin. split.
    + apply framed_loop_body. intros d name _. apply framed_appendObject.
    + apply loop_body_names; [exact Hparent |].
      intros d name Hsize Hname. split; [apply framed_appendObject |].
      apply IH; [| exact Hname]. pose proof (size_property key v props Hin). lia.
Qed.

Lemma appended_names_extend_the_parent_key_witness :
  "user" <> "" /\
  Forall (fun e => String.prefix "user." (fst e) = true)
    (fst (appendObjectToFormData
            (DObject [("name", DString "Ana");
                      ("pets", DArray [DObject [("kind", DString "cat")]; DString "fish"])])
            "user" [])) /\
  fst (appendObjectToFormData
         (DObject [("name", DString "Ana");
                   ("pets", DArray [DObject [("kind", DString "cat")]; DString "fish"])])
         "user" [])
    = [("user.name", Text "Ana"); ("user.pets[0].kind", Text "cat");
       ("user.pets[1]", Text "fish")].
Proof.
  split; [discriminate |]. split; [| reflexivity].
  apply (appended_names_extend_the_parent_key
           (DObject [("name", DString "Ana");
                     ("pets", DArray [DObject [("kind", DString "cat")]; DString "fish"])])
           "user").
  discriminate.
Defined.

(** X21. [appendFilesToFormData] appends every file of the array, in order,
    each under the one name [files], after the entries already there; and
    appending two arrays one after the other is appending their
    concatenation. *)
Theorem files_are_appended_under_one_name (filesToUpload : list File) (fd : FormData) :
  appendFilesToFormData filesToUpload fd =
    (fd ++ List.map (fun file => ("files", Upload file)) filesToUpload, Returned) /\
  forall more,
    appendFilesToFormData more (fst (appendFilesToFormData filesToUpload fd)) =
      appendFilesToFormData (filesToUpload ++ more) fd.
Proof.
  assert (Hloop : forall files i fd0,
            each_index (fun (_ : nat) file => append "files" (Upload file)) i files fd0 =
              (fd0 ++ List.map (fun file => ("files", Upload file)) files, Returned)).
  { induction files as [| file files IH]; intros i fd0.
    - cbn. by rewrite app_nil_r.
    - cbn [each_index List.map]. unfold and_then. cbv [append].
      rewrite IH, <- app_assoc. reflexivity. }
  unfold appendFilesToFormData. split; [apply Hloop |].
  intros more. rewrite !Hloop. cbn [fst].
  rewrite List.map_app, app_assoc. reflexivity.
Qed.

End FormNames.
